(** * Statement queries of the dashboard API server

    A shallow embedding of [pkg/apiserver/statement/queries.go]: the
    accessor of the three statement-summary settings and the builders of
    the statement, plan and plan-detail queries, together with the
    properties the specification states about them.

    The store behind [*gorm.DB] is not part of the package.  It is
    modelled as an oracle that answers every call from the calls issued
    before it, so a theorem quantified over [DB] holds for every
    deterministic store, and the calls a function issued can be read
    back from the handle it returns. *)

From Stdlib Require Import ZArith List Bool Ascii String Lia.
From Stdlib Require Import Sorting.Sorted Sorting.Permutation.
Import ListNotations.
Local Open Scope string_scope.
Local Open Scope Z_scope.

(** ** The parts of Go's standard library the file calls *)

Module GoStd.

(** [fmt.Sprintf] for formats whose only verb is [%s]. *)
Fixpoint Sprintf (format : string) (args : list string) : string :=
  match format with
  | EmptyString => EmptyString
  | String "%" (String "s" rest) =>
      match args with
      | a :: args' => a ++ Sprintf rest args'
      | [] => "%!s(MISSING)" ++ Sprintf rest []
      end
  | String c rest => String c (Sprintf rest args)
  end.

(** [strings.Join]. *)
Fixpoint Join (elems : list string) (sep : string) : string :=
  match elems with
  | [] => ""
  | [e] => e
  | e :: rest => e ++ sep ++ Join rest sep
  end.

Definition isUpper (c : ascii) : bool :=
  ((65 <=? nat_of_ascii c) && (nat_of_ascii c <=? 90))%nat.

Definition toLowerByte (c : ascii) : ascii :=
  if isUpper c then ascii_of_nat (nat_of_ascii c + 32) else c.

(** [strings.ToLower] on ASCII text: the letters A-Z are mapped, every
    other byte is kept. *)
Fixpoint ToLower (s : string) : string :=
  match s with
  | EmptyString => EmptyString
  | String c rest => String (toLowerByte c) (ToLower rest)
  end.

(** The ASCII white space of [unicode.IsSpace]:
    tab, line feed, vertical tab, form feed, carriage return, space. *)
Definition isSpace (c : ascii) : bool :=
  let n := nat_of_ascii c in
  ((9 <=? n) && (n <=? 13) || (n =? 32))%nat.

Definition flush (cur : string) : list string :=
  match cur with EmptyString => [] | _ => [cur] end.

Fixpoint fieldsFrom (cur s : string) : list string :=
  match s with
  | EmptyString => flush cur
  | String c rest =>
      if isSpace c then flush cur ++ fieldsFrom "" rest
      else fieldsFrom (cur ++ String c "") rest
  end.

(** [strings.Fields]: the maximal runs of non-space bytes, in order. *)
Definition Fields (s : string) : list string := fieldsFrom "" s.

(** The bytes [regexp.QuoteMeta] escapes. *)
Definition specialBytes : list ascii :=
  list_ascii_of_string "\.+*?()|[]{}^$".

Definition special (c : ascii) : bool :=
  existsb (Ascii.eqb c) specialBytes.

(** [regexp.QuoteMeta]: a backslash before every special byte. *)
Fixpoint QuoteMeta (s : string) : string :=
  match s with
  | EmptyString => EmptyString
  | String c rest =>
      if special c then String "\" (String c (QuoteMeta rest))
      else String c (QuoteMeta rest)
  end.

Inductive numErr := ErrSyntax | ErrRange.

Definition isDigit (c : ascii) : bool :=
  ((48 <=? nat_of_ascii c) && (nat_of_ascii c <=? 57))%nat.

Definition digitVal (c : ascii) : Z := Z.of_nat (nat_of_ascii c) - 48.

Definition maxUint : Z := 2 ^ 64 - 1.
Definition maxInt : Z := 2 ^ 63 - 1.
Definition minInt : Z := - 2 ^ 63.

(** The loop of [strconv.ParseUint] in base 10: a byte that is not a
    digit is a syntax error, and the value leaving the range of [uint64]
    is a range error, whichever comes first. *)
Fixpoint parseDigits (acc : Z) (s : string) : Z + numErr :=
  match s with
  | EmptyString => inl acc
  | String c rest =>
      if isDigit c then
        let acc' := acc * 10 + digitVal c in
        if maxUint <? acc' then inr ErrRange else parseDigits acc' rest
      else inr ErrSyntax
  end.

(** [strconv.Atoi] for a 64-bit [int]: an optional sign and at least
    one decimal digit; a value outside the range of [int] is a range
    error. *)
Definition Atoi (s : string) : Z + numErr :=
  let '(neg, body) :=
    match s with
    | String "-" rest => (true, rest)
    | String "+" rest => (false, rest)
    | _ => (false, s)
    end in
  match body with
  | EmptyString => inr ErrSyntax
  | _ =>
      match parseDigits 0 body with
      | inr e => inr e
      | inl n =>
          let v := if neg then - n else n in
          if (minInt <=? v) && (v <=? maxInt) then inl v else inr ErrRange
      end
  end.

End GoStd.
Import GoStd.

(** ** Errors, bound values and queries *)

(** The values of Go's [error] that reach the callers of this file;
    [ErrRecordNotFound] is gorm's error of that name. *)
Inductive error : Type :=
| StoreError (msg : string)
| ResolverError (msg : string)
| UnknownFieldError
| NumError (func num : string) (err : numErr)
| ErrRecordNotFound.

(** A run-time panic of the Go program. *)
Inductive panic : Type :=
| IndexOutOfRange (index : nat) (length : nat).

(** A value bound to a [?] of a statement. *)
Inductive Arg : Type :=
| ABool (b : bool)
| AInt (n : Z)
| AStr (s : string)
| AStrs (l : list string).

(** One [Where] condition: the SQL fragment and the values bound to it. *)
Record Clause : Type := mkClause { fragment : string; bound : list Arg }.

(** What the [gorm] builder has accumulated: gorm joins the [Where]
    conditions, each in parentheses, with [AND], in the order they were
    added. *)
Record Query : Type := mkQuery {
  qSelect : string;
  qTable : string;
  qWhere : list Clause;
  qGroup : option string;
  qOrder : option string
}.

Definition newQuery : Query :=
  {| qSelect := ""; qTable := ""; qWhere := []; qGroup := None; qOrder := None |}.

Definition Select (q : Query) (s : string) : Query :=
  {| qSelect := s; qTable := qTable q; qWhere := qWhere q;
     qGroup := qGroup q; qOrder := qOrder q |}.

Definition Table (q : Query) (t : string) : Query :=
  {| qSelect := qSelect q; qTable := t; qWhere := qWhere q;
     qGroup := qGroup q; qOrder := qOrder q |}.

Definition Where (q : Query) (frag : string) (args : list Arg) : Query :=
  {| qSelect := qSelect q; qTable := qTable q;
     qWhere := qWhere q ++ [mkClause frag args];
     qGroup := qGroup q; qOrder := qOrder q |}.

Definition Group (q : Query) (g : string) : Query :=
  {| qSelect := qSelect q; qTable := qTable q; qWhere := qWhere q;
     qGroup := Some g; qOrder := qOrder q |}.

Definition Order (q : Query) (o : string) : Query :=
  {| qSelect := qSelect q; qTable := qTable q; qWhere := qWhere q;
     qGroup := qGroup q; qOrder := Some o |}.

(** Modelled from the spec: [Model] is declared in a file of the package
    that is not among the sources; the spec describes it as an open-ended
    mapping from column name to scalar value.  Its zero value has no
    entry. *)
Inductive Scalar : Type := SInt (n : Z) | SStr (s : string).
Definition Model : Type := list (string * Scalar).
Definition zeroModel : Model := [].

(** [Config], as the accessor reads and writes its three fields. *)
Record Config : Type := mkConfig {
  Enable : bool;
  RefreshInterval : Z;
  HistorySize : Z
}.

(** ** The store *)

Inductive Call : Type :=
| CallExec (sql : string) (args : list Arg)
| CallPluck (sql column : string)
| CallColumns (table : string)
| CallFind (q : Query)
| CallScan (q : Query).

(** A handle on the store: the calls issued so far, oldest first, and the
    answer of the store to a call after a given history.  [onPluck] and
    [onFind] give the destination slice after the call, [onScan] the row
    written to the destination struct, if one was. *)
Record DB : Type := mkDB {
  history : list Call;
  onExec : list Call -> string -> list Arg -> option error;
  onPluck : list Call -> string -> string -> list string * option error;
  onColumns : list Call -> string -> list string * option error;
  onFind : list Call -> Query -> list Model * option error;
  onScan : list Call -> Query -> option Model * option error
}.

Definition record (db : DB) (c : Call) : DB :=
  {| history := history db ++ [c];
     onExec := onExec db; onPluck := onPluck db; onColumns := onColumns db;
     onFind := onFind db; onScan := onScan db |}.

(** What a Go call leaves behind: its results, or a panic. *)
Inductive outcome (A : Type) : Type :=
| Returned (a : A)
| Panicked (p : panic).
Arguments Returned {A} a.
Arguments Panicked {A} p.

(** Computations against the store. *)
Definition Go (A : Type) : Type := DB -> DB * outcome A.

Definition ret {A} (a : A) : Go A := fun db => (db, Returned a).

Definition raise {A} (p : panic) : Go A := fun db => (db, Panicked p).

Definition bind {A B} (m : Go A) (k : A -> Go B) : Go B :=
  fun db =>
    match m db with
    | (db', Returned a) => k a db'
    | (db', Panicked p) => (db', Panicked p)
    end.

Notation "x <- m ;; k" := (bind m (fun x => k))
  (at level 61, m at next level, right associativity).
Notation "' p <- m ;; k" := (bind m (fun x => let 'p := x in k))
  (at level 61, p pattern, m at next level, right associativity).

(** [db.Exec(sql, args...).Error] *)
Definition Exec (sql : string) (args : list Arg) : Go (option error) :=
  fun db => (record db (CallExec sql args), Returned (onExec db (history db) sql args)).

(** [db.Raw(sql).Pluck(column, &values).Error], with [values] after it. *)
Definition RawPluck (sql column : string) : Go (list string * option error) :=
  fun db => (record db (CallPluck sql column), Returned (onPluck db (history db) sql column)).

(** [s.params.SysSchema.GetTableColumnNames(db, table)] *)
Definition GetTableColumnNames (table : string) : Go (list string * option error) :=
  fun db => (record db (CallColumns table), Returned (onColumns db (history db) table)).

(** [query.Find(&result).Error], with [result] after it. *)
Definition Find (q : Query) : Go (list Model * option error) :=
  fun db => (record db (CallFind q), Returned (onFind db (history db) q)).

(** [query.Scan(&result).Error] on a zero-valued [result]. *)
Definition Scan (q : Query) : Go (Model * option error) :=
  fun db =>
    let '(row, err) := onScan db (history db) q in
    (record db (CallScan q),
     Returned (match row with Some m => m | None => zeroModel end, err)).

(** [s[i]] on a slice. *)
Definition index {A} (s : list A) (i : nat) : Go A :=
  match nth_error s i with
  | Some a => ret a
  | None => raise (IndexOutOfRange i (List.length s))
  end.

(** ** The configuration accessor *)

Definition statementsTable : string := "INFORMATION_SCHEMA.CLUSTER_STATEMENTS_SUMMARY_HISTORY".
Definition stmtEnableVar : string := "tidb_enable_stmt_summary".
Definition stmtRefreshIntervalVar : string := "tidb_stmt_summary_refresh_interval".
Definition stmtHistorySizeVar : string := "tidb_stmt_summary_history_size".

Definition querySQLIntVariable (name : string) : Go (Z * option error) :=
  let sql := Sprintf "SELECT @@GLOBAL.%s as value" [name] in
  '(values, err) <- RawPluck sql "value" ;;
  match err with
  | Some e => ret (0, Some e)
  | None =>
      strVal <- index values 0 ;;
      if String.eqb strVal "" then ret (-1, None)
      else
        match Atoi strVal with
        | inr e => ret (0, Some (NumError "Atoi" strVal e))
        | inl intVal => ret (intVal, None)
        end
  end.

Definition queryStmtConfig : Go (option Config * option error) :=
  '(enable, err) <- querySQLIntVariable stmtEnableVar ;;
  match err with
  | Some e => ret (None, Some e)
  | None =>
      let configEnable := negb (enable =? 0) in
      '(refreshInterval, err) <- querySQLIntVariable stmtRefreshIntervalVar ;;
      match err with
      | Some e => ret (None, Some e)
      | None =>
          let configRefreshInterval :=
            if refreshInterval =? -1 then 1800 else refreshInterval in
          '(historySize, err) <- querySQLIntVariable stmtHistorySizeVar ;;
          match err with
          | Some e => ret (None, Some e)
          | None =>
              let configHistorySize :=
                if historySize =? -1 then 24 else historySize in
              ret (Some (mkConfig configEnable configRefreshInterval configHistorySize), err)
          end
      end
  end.

Definition updateStmtConfig (config : Config) : Go (option error) :=
  let sql := Sprintf "SET GLOBAL %s = ?" [stmtEnableVar] in
  err <- Exec sql [ABool (Enable config)] ;;
  if Enable config then
    (* update other configurations *)
    let sql := Sprintf "SET GLOBAL %s = ?" [stmtRefreshIntervalVar] in
    err <- Exec sql [AInt (RefreshInterval config)] ;;
    match err with
    | Some _ => ret err
    | None =>
        let sql := Sprintf "SET GLOBAL %s = ?" [stmtHistorySizeVar] in
        err <- Exec sql [AInt (HistorySize config)] ;;
        ret err
    end
  else ret err.

(** ** The statement queries *)

(** The receiver of the query methods.  [genSelectStmt] is a method of the
    package whose body is not among the sources: the queries are stated
    for every implementation of it. *)
Record Service : Type := mkService {
  genSelectStmt : list string -> list string -> string * option error
}.

(** Modelled from the spec: [genSelectStmt] is defined in a file of the
    package that is not among the sources.  The spec has it fail with
    [UnknownFieldError] if any requested name is not a member of the
    resolved column set, and keep the known names in the caller's order.
    The text of each column's expression is the collaborator's concern:
    the model lists the names. *)
Definition genSelectStmtSpec (tableColumns reqJSONColumns : list string)
  : string * option error :=
  if forallb (fun f => existsb (String.eqb f) tableColumns) reqJSONColumns
  then (Join reqJSONColumns ", ", None)
  else ("", Some UnknownFieldError).

Definition specService : Service := {| genSelectStmt := genSelectStmtSpec |}.

(** The line break inside the raw string of the text condition: a line
    feed and four tabs. *)
Definition rawBreak : string :=
  String (ascii_of_nat 10)
    (String (ascii_of_nat 9) (String (ascii_of_nat 9)
       (String (ascii_of_nat 9) (String (ascii_of_nat 9) "")))).

(** The query [queryStatements] has built when it calls [Find]. *)
Definition statementsQuery (selectStmt : string) (beginTime endTime : Z)
    (schemas stmtTypes : list string) (text : string) : Query :=
  let query :=
    Order
      (Group
         (Where
            (Table (Select newQuery selectStmt) statementsTable)
            "summary_begin_time >= FROM_UNIXTIME(?) AND summary_end_time <= FROM_UNIXTIME(?)"
            [AInt beginTime; AInt endTime])
         "schema_name, digest")
      "agg_sum_latency DESC" in
  let query :=
    if (0 <? List.length schemas)%nat then
      let regex :=
        fold_left
          (fun regex schema => (regex ++ [Sprintf "\b%s\." [QuoteMeta schema]])%list)
          schemas [] in
      let regexAll := Join regex "|" in
      Where query "table_names REGEXP ?" [AStr regexAll]
    else query in
  let query :=
    if (0 <? List.length stmtTypes)%nat then
      Where query "stmt_type in (?)" [AStrs stmtTypes]
    else query in
  let query :=
    if (0 <? String.length text)%nat then
      let lowerText := ToLower text in
      let arr := Fields lowerText in
      fold_left
        (fun query v =>
           Where query
             ("LOWER(digest_text) REGEXP ?" ++ rawBreak ++
              " OR LOWER(digest) REGEXP ?" ++ rawBreak ++
              " OR LOWER(schema_name) REGEXP ?" ++ rawBreak ++
              " OR LOWER(table_names) REGEXP ?" ++ rawBreak ++
              " OR LOWER(plan) REGEXP ?")
             [AStr v; AStr v; AStr v; AStr v; AStr v])
        arr query
    else query in
  query.

Definition queryStatements (s : Service) (beginTime endTime : Z)
    (schemas stmtTypes : list string) (text : string) (reqFields : list string)
  : Go (list Model * option error) :=
  '(tableColumns, err) <- GetTableColumnNames statementsTable ;;
  match err with
  | Some e => ret ([], Some e)
  | None =>
      let '(selectStmt, err) := genSelectStmt s tableColumns reqFields in
      match err with
      | Some e => ret ([], Some e)
      | None =>
          let query :=
            statementsQuery selectStmt beginTime endTime schemas stmtTypes text in
          '(result, err) <- Find query ;;
          ret (result, err)
      end
  end.

Definition planFields : list string :=
  ["plan_digest"; "schema_name"; "digest_text"; "digest"; "sum_latency";
   "max_latency"; "min_latency"; "avg_latency"; "exec_count"; "avg_mem";
   "max_mem"].

(** The query [queryPlans] runs. *)
Definition plansQuery (selectStmt : string) (beginTime endTime : Z)
    (schemaName digest : string) : Query :=
  Group
    (Where
       (Where
          (Where
             (Table (Select newQuery selectStmt) statementsTable)
             "summary_begin_time >= FROM_UNIXTIME(?) AND summary_end_time <= FROM_UNIXTIME(?)"
             [AInt beginTime; AInt endTime])
          "schema_name = ?" [AStr schemaName])
       "digest = ?" [AStr digest])
    "plan_digest".

Definition queryPlans (s : Service) (beginTime endTime : Z)
    (schemaName digest : string) : Go (list Model * option error) :=
  '(tableColumns, err) <- GetTableColumnNames statementsTable ;;
  match err with
  | Some e => ret ([], Some e)
  | None =>
      let '(selectStmt, err) := genSelectStmt s tableColumns planFields in
      match err with
      | Some e => ret ([], Some e)
      | None =>
          '(result, err) <-
            Find (plansQuery selectStmt beginTime endTime schemaName digest) ;;
          ret (result, err)
      end
  end.

(** The query [queryPlanDetail] has built when it calls [Scan]. *)
Definition planDetailQuery (selectStmt : string) (beginTime endTime : Z)
    (schemaName digest : string) (plans : list string) : Query :=
  let query :=
    Where
      (Where
         (Where
            (Table (Select newQuery selectStmt) statementsTable)
            "summary_begin_time >= FROM_UNIXTIME(?) AND summary_end_time <= FROM_UNIXTIME(?)"
            [AInt beginTime; AInt endTime])
         "schema_name = ?" [AStr schemaName])
      "digest = ?" [AStr digest] in
  let query :=
    if (0 <? List.length plans)%nat then
      Where query "plan_digest in (?)" [AStrs plans]
    else query in
  query.

(** The named results [result] and [err] start at their zero values, and
    the bare [return]s give back what they hold. *)
Definition queryPlanDetail (s : Service) (beginTime endTime : Z)
    (schemaName digest : string) (plans : list string)
  : Go (Model * option error) :=
  '(tableColumns, err) <- GetTableColumnNames statementsTable ;;
  match err with
  | Some e => ret (zeroModel, Some e)
  | None =>
      let '(selectStmt, err) := genSelectStmt s tableColumns ["*"] in
      match err with
      | Some e => ret (zeroModel, Some e)
      | None =>
          let query :=
            planDetailQuery selectStmt beginTime endTime schemaName digest plans in
          '(result, err) <- Scan query ;;
          ret (result, err)
      end
  end.

(** ** The store's side: rows, conditions and pattern search *)

(** The patterns the schema filter can produce, and their search: a
    sequence of literal bytes and word boundaries, alternatives separated
    by a bar.  A byte after a backslash is the word boundary for [b] and
    itself when it is one of the special bytes. *)
Module Regexp.

Inductive atom : Type :=
| Lit (c : ascii)
| WordBoundary.

Fixpoint parseFrom (cur : list atom) (s : string) : option (list (list atom)) :=
  match s with
  | EmptyString => Some [cur]
  | String c rest =>
      if Ascii.eqb c "\" then
        match rest with
        | EmptyString => None
        | String d rest' =>
            if Ascii.eqb d "b" then parseFrom (cur ++ [WordBoundary]) rest'
            else if special d then parseFrom (cur ++ [Lit d]) rest'
            else None
        end
      else if Ascii.eqb c "|" then option_map (cons cur) (parseFrom [] rest)
      else if special c then None
      else parseFrom (cur ++ [Lit c]) rest
  end.

Definition parse (pattern : string) : option (list (list atom)) :=
  parseFrom [] pattern.

(** The word bytes: digits, letters and the underscore. *)
Definition isWord (c : ascii) : bool :=
  let n := nat_of_ascii c in
  ((48 <=? n) && (n <=? 57) || (65 <=? n) && (n <=? 90)
   || (97 <=? n) && (n <=? 122) || (n =? 95))%nat.

Definition wordBefore (prev : option ascii) : bool :=
  match prev with Some c => isWord c | None => false end.

Definition wordAfter (s : string) : bool :=
  match s with String c _ => isWord c | EmptyString => false end.

(** Does the sequence match at the position whose previous byte is
    [prev] and whose remaining text is [s]? *)
Fixpoint matchAt (atoms : list atom) (prev : option ascii) (s : string) : bool :=
  match atoms with
  | [] => true
  | Lit c :: atoms' =>
      match s with
      | String d s' => Ascii.eqb c d && matchAt atoms' (Some d) s'
      | EmptyString => false
      end
  | WordBoundary :: atoms' =>
      xorb (wordBefore prev) (wordAfter s) && matchAt atoms' prev s
  end.

Fixpoint searchFrom (alts : list (list atom)) (prev : option ascii) (s : string) : bool :=
  existsb (fun atoms => matchAt atoms prev s) alts
  || match s with
     | EmptyString => false
     | String c s' => searchFrom alts (Some c) s'
     end.

(** [subject REGEXP pattern]: the pattern matches somewhere in the
    subject.  A pattern outside the fragment matches nothing. *)
Definition REGEXP (subject pattern : string) : bool :=
  match parse pattern with
  | Some alts => searchFrom alts None subject
  | None => false
  end.

End Regexp.

(** A row of the statement-summary history, with the columns the
    conditions of this file name.  The two window bounds are whole
    seconds since the epoch, which is what [FROM_UNIXTIME] is given. *)
Record Row : Type := mkRow {
  summary_begin_time : Z;
  summary_end_time : Z;
  schema_name : string;
  digest : string;
  digest_text : string;
  table_names : string;
  plan : string;
  plan_digest : string;
  stmt_type : string;
  sum_latency : Z
}.

Section Executor.

Local Open Scope string_scope.

(** The store's pattern search, [subject REGEXP pattern]. *)
Variable regexpLike : string -> string -> bool.

(** SQL's [LOWER], on ASCII text. *)
Definition LOWER (s : string) : string := ToLower s.

(** What each condition of this file means on a row. *)
Definition clauseHolds (r : Row) (c : Clause) : bool :=
  if fragment c =? "summary_begin_time >= FROM_UNIXTIME(?) AND summary_end_time <= FROM_UNIXTIME(?)" then
    match bound c with
    | [AInt b; AInt e] => (b <=? summary_begin_time r)%Z && (summary_end_time r <=? e)%Z
    | _ => false
    end
  else if fragment c =? "table_names REGEXP ?" then
    match bound c with
    | [AStr p] => regexpLike (table_names r) p
    | _ => false
    end
  else if fragment c =? "stmt_type in (?)" then
    match bound c with
    | [AStrs l] => existsb (String.eqb (stmt_type r)) l
    | _ => false
    end
  else if fragment c =?
            "LOWER(digest_text) REGEXP ?" ++ rawBreak ++
            " OR LOWER(digest) REGEXP ?" ++ rawBreak ++
            " OR LOWER(schema_name) REGEXP ?" ++ rawBreak ++
            " OR LOWER(table_names) REGEXP ?" ++ rawBreak ++
            " OR LOWER(plan) REGEXP ?" then
    match bound c with
    | [AStr p1; AStr p2; AStr p3; AStr p4; AStr p5] =>
        regexpLike (LOWER (digest_text r)) p1
        || regexpLike (LOWER (digest r)) p2
        || regexpLike (LOWER (schema_name r)) p3
        || regexpLike (LOWER (table_names r)) p4
        || regexpLike (LOWER (plan r)) p5
    | _ => false
    end
  else if fragment c =? "schema_name = ?" then
    match bound c with
    | [AStr v] => schema_name r =? v
    | _ => false
    end
  else if fragment c =? "digest = ?" then
    match bound c with
    | [AStr v] => digest r =? v
    | _ => false
    end
  else if fragment c =? "plan_digest in (?)" then
    match bound c with
    | [AStrs l] => existsb (String.eqb (plan_digest r)) l
    | _ => false
    end
  else false.

(** A row is selected when every condition holds on it. *)
Definition rowMatches (q : Query) (r : Row) : bool :=
  forallb (clauseHolds r) (qWhere q).

Definition selected (q : Query) (rows : list Row) : list Row :=
  filter (rowMatches q) rows.

(** The columns a [GROUP BY] of this file names. *)
Definition groupKey (g : option string) (r : Row) : list string :=
  match g with
  | Some g =>
      if g =? "schema_name, digest" then [schema_name r; digest r]
      else if g =? "plan_digest" then [plan_digest r]
      else []
  | None => []
  end.

Definition keyEqb (k1 k2 : list string) : bool :=
  if list_eq_dec string_dec k1 k2 then true else false.

Fixpoint addToGroup (k : list string) (r : Row)
    (groups : list (list string * list Row)) : list (list string * list Row) :=
  match groups with
  | [] => [(k, [r])]
  | (k', rs) :: rest =>
      if keyEqb k k' then (k', (rs ++ [r])%list) :: rest
      else (k', rs) :: addToGroup k r rest
  end.

Definition groupRows (key : Row -> list string) (rows : list Row)
  : list (list string * list Row) :=
  fold_left (fun groups r => addToGroup (key r) r groups) rows [].

(** [SUM(sum_latency)] over a group. *)
Definition sumLatency (rs : list Row) : Z :=
  fold_right Z.add 0%Z (map sum_latency rs).

Fixpoint insertDesc (g : list string * list Row)
    (sorted : list (list string * list Row)) : list (list string * list Row) :=
  match sorted with
  | [] => [g]
  | h :: rest =>
      if (sumLatency (snd h) <? sumLatency (snd g))%Z then g :: h :: rest
      else h :: insertDesc g rest
  end.

(** Modelled from the spec: the alias [agg_sum_latency] is declared in a
    file of the package that is not among the sources; the spec calls
    it the total-latency sum. *)
Definition orderGroups (o : option string)
    (groups : list (list string * list Row)) : list (list string * list Row) :=
  match o with
  | Some o =>
      if o =? "agg_sum_latency DESC" then fold_right insertDesc [] groups
      else groups
  | None => groups
  end.

(** The groups a query yields, in the order of its result. *)
Definition evalQuery (q : Query) (rows : list Row) : list (list string * list Row) :=
  orderGroups (qOrder q) (groupRows (groupKey (qGroup q)) (selected q rows)).

(** How the store turns the rows behind one result into a [Model] under
    the projection of the query. *)
Variable project : Query -> list Row -> Model.

(** A store that holds [rows] and the columns [columns].  [Find] into
    a slice yields one [Model] per group and no error, also when there
    is none.  [Scan] into a struct writes a row when one is selected;
    when none is, it leaves the struct as it was and reports gorm's
    [ErrRecordNotFound]. *)
Definition tableDB (columns : list string) (rows : list Row) : DB :=
  {| history := [];
     onExec := fun _ _ _ => None;
     onPluck := fun _ _ _ => ([""], None);
     onColumns := fun _ _ => (columns, None);
     onFind := fun _ q =>
       (map (fun g => project q (snd g)) (evalQuery q rows), None);
     onScan := fun _ q =>
       match selected q rows with
       | [] => (None, Some ErrRecordNotFound)
       | _ :: _ => (Some (project q (selected q rows)), None)
       end |}.

End Executor.

(** ** The text search for every text

    [strings.ToLower] and [strings.Fields] follow the Unicode tables and
    so does the [LOWER] of the store; [GoStd.ToLower], [GoStd.Fields] and
    [LOWER] above are their restrictions to ASCII text.  Here the three
    functions are parameters, and the definitions above are the
    instances at the ASCII functions. *)
Module AnyText.

Section Strings.

(** [strings.ToLower] and [strings.Fields]. *)
Variable toLower : string -> string.
Variable fields : string -> list string.

(** The query [queryStatements] has built when it calls [Find]. *)
Definition statementsQuery (selectStmt : string) (beginTime endTime : Z)
    (schemas stmtTypes : list string) (text : string) : Query :=
  let query :=
    Order
      (Group
         (Where
            (Table (Select newQuery selectStmt) statementsTable)
            "summary_begin_time >= FROM_UNIXTIME(?) AND summary_end_time <= FROM_UNIXTIME(?)"
            [AInt beginTime; AInt endTime])
         "schema_name, digest")
      "agg_sum_latency DESC" in
  let query :=
    if (0 <? List.length schemas)%nat then
      let regex :=
        fold_left
          (fun regex schema => (regex ++ [Sprintf "\b%s\." [QuoteMeta schema]])%list)
          schemas [] in
      let regexAll := Join regex "|" in
      Where query "table_names REGEXP ?" [AStr regexAll]
    else query in
  let query :=
    if (0 <? List.length stmtTypes)%nat then
      Where query "stmt_type in (?)" [AStrs stmtTypes]
    else query in
  let query :=
    if (0 <? String.length text)%nat then
      let lowerText := toLower text in
      let arr := fields lowerText in
      fold_left
        (fun query v =>
           Where query
             ("LOWER(digest_text) REGEXP ?" ++ rawBreak ++
              " OR LOWER(digest) REGEXP ?" ++ rawBreak ++
              " OR LOWER(schema_name) REGEXP ?" ++ rawBreak ++
              " OR LOWER(table_names) REGEXP ?" ++ rawBreak ++
              " OR LOWER(plan) REGEXP ?")
             [AStr v; AStr v; AStr v; AStr v; AStr v])
        arr query
    else query in
  query.

Definition queryStatements (s : Service) (beginTime endTime : Z)
    (schemas stmtTypes : list string) (text : string) (reqFields : list string)
  : Go (list Model * option error) :=
  '(tableColumns, err) <- GetTableColumnNames statementsTable ;;
  match err with
  | Some e => ret ([], Some e)
  | None =>
      let '(selectStmt, err) := genSelectStmt s tableColumns reqFields in
      match err with
      | Some e => ret ([], Some e)
      | None =>
          let query :=
            statementsQuery selectStmt beginTime endTime schemas stmtTypes text in
          '(result, err) <- Find query ;;
          ret (result, err)
      end
  end.

End Strings.

Section Store.

Local Open Scope string_scope.

(** The [LOWER] and the pattern search of the store. *)
Variable lower : string -> string.
Variable regexpLike : string -> string -> bool.

(** What each condition of this file means on a row: the text condition
    with the store's [LOWER], the others as above. *)
Definition clauseHolds (r : Row) (c : Clause) : bool :=
  if fragment c =?
       "LOWER(digest_text) REGEXP ?" ++ rawBreak ++
       " OR LOWER(digest) REGEXP ?" ++ rawBreak ++
       " OR LOWER(schema_name) REGEXP ?" ++ rawBreak ++
       " OR LOWER(table_names) REGEXP ?" ++ rawBreak ++
       " OR LOWER(plan) REGEXP ?" then
    match bound c with
    | [AStr p1; AStr p2; AStr p3; AStr p4; AStr p5] =>
        regexpLike (lower (digest_text r)) p1
        || regexpLike (lower (digest r)) p2
        || regexpLike (lower (schema_name r)) p3
        || regexpLike (lower (table_names r)) p4
        || regexpLike (lower (plan r)) p5
    | _ => false
    end
  else clauseHolds regexpLike r c.

Definition rowMatches (q : Query) (r : Row) : bool :=
  forallb (clauseHolds r) (qWhere q).

End Store.

End AnyText.

(** ** Stores, rows and conditions to state the properties with *)

(** A store whose [n]-th call, counted from 0, fails with [e] when it is
    a write, and whose other writes succeed. *)
Definition writeFailsAt (n : nat) (e : error) : DB :=
  {| history := [];
     onExec := fun h _ _ => if (List.length h =? n)%nat then Some e else None;
     onPluck := fun _ _ _ => ([""], None);
     onColumns := fun _ _ => ([], None);
     onFind := fun _ _ => ([], None);
     onScan := fun _ _ => (None, None) |}.

(** A store that answers its [n]-th call, when it is a read of a
    variable, with the [n]-th element of [answers]. *)
Definition variablesDB (answers : list (list string * option error)) : DB :=
  {| history := [];
     onExec := fun _ _ _ => None;
     onPluck := fun h _ _ => nth (List.length h) answers ([], None);
     onColumns := fun _ _ => ([], None);
     onFind := fun _ _ => ([], None);
     onScan := fun _ _ => (None, None) |}.

(** The three writes of [updateStmtConfig]. *)
Definition enableWrite (config : Config) : Call :=
  CallExec "SET GLOBAL tidb_enable_stmt_summary = ?" [ABool (Enable config)].
Definition refreshIntervalWrite (config : Config) : Call :=
  CallExec "SET GLOBAL tidb_stmt_summary_refresh_interval = ?" [AInt (RefreshInterval config)].
Definition historySizeWrite (config : Config) : Call :=
  CallExec "SET GLOBAL tidb_stmt_summary_history_size = ?" [AInt (HistorySize config)].

(** The calls a computation issued, given the handle before and after. *)
Definition issued (before after : DB) : list Call :=
  skipn (List.length (history before)) (history after).

(** The conditions of the statement query, one by one. *)
Definition windowClause (beginTime endTime : Z) : Clause :=
  mkClause
    "summary_begin_time >= FROM_UNIXTIME(?) AND summary_end_time <= FROM_UNIXTIME(?)"
    [AInt beginTime; AInt endTime].

Definition schemaPattern (schema : string) : string :=
  "\b" ++ QuoteMeta schema ++ "\.".

Definition schemaClause (schemas : list string) : Clause :=
  mkClause "table_names REGEXP ?" [AStr (Join (map schemaPattern schemas) "|")].

Definition stmtTypeClause (stmtTypes : list string) : Clause :=
  mkClause "stmt_type in (?)" [AStrs stmtTypes].

Definition textFragment : string :=
  "LOWER(digest_text) REGEXP ?" ++ rawBreak ++
  " OR LOWER(digest) REGEXP ?" ++ rawBreak ++
  " OR LOWER(schema_name) REGEXP ?" ++ rawBreak ++
  " OR LOWER(table_names) REGEXP ?" ++ rawBreak ++
  " OR LOWER(plan) REGEXP ?".

Definition textClause (v : string) : Clause :=
  mkClause textFragment [AStr v; AStr v; AStr v; AStr v; AStr v].

(** The last byte of a text, if it has one. *)
Fixpoint lastByte (s : string) : option ascii :=
  match s with
  | EmptyString => None
  | String c EmptyString => Some c
  | String _ rest => lastByte rest
  end.

(** [tableNames] holds [schema] followed by a dot, starting at a word
    boundary. *)
Definition referencesSchema (schema tableNames : string) : Prop :=
  exists pre post,
    tableNames = pre ++ schema ++ "." ++ post /\
    xorb (Regexp.wordBefore (lastByte pre))
         (Regexp.wordAfter (schema ++ "." ++ post)) = true.

(** The atoms of the pattern of one schema. *)
Definition schemaAtoms (schema : string) : list Regexp.atom :=
  Regexp.WordBoundary :: map Regexp.Lit (list_ascii_of_string (schema ++ ".")).

(** The byte before the position that follows [pre], when the byte
    before [pre] is [prev]. *)
Definition prevAt (prev : option ascii) (pre : string) : option ascii :=
  match lastByte pre with Some c => Some c | None => prev end.

(** A row with the given window, table references and statement text. *)
Definition sampleRow (beginTime endTime : Z) (tableNames digestText : string) : Row :=
  {| summary_begin_time := beginTime; summary_end_time := endTime;
     schema_name := ""; digest := "d1"; digest_text := digestText;
     table_names := tableNames; plan := ""; plan_digest := "p1";
     stmt_type := "Select"; sum_latency := 0 |}.

(** A service whose projection step accepts every request and selects
    all the columns. *)
Definition allColumnsService : Service :=
  {| genSelectStmt := fun tableColumns _ => (Join tableColumns ", ", None) |}.

(** A store with the columns [columns] that never fails and holds no
    row. *)
Definition emptyDB (columns : list string) : DB :=
  {| history := [];
     onExec := fun _ _ _ => None;
     onPluck := fun _ _ _ => ([""], None);
     onColumns := fun _ _ => (columns, None);
     onFind := fun _ _ => ([], None);
     onScan := fun _ _ => (None, None) |}.

(** The rows gathered under a key. *)
Fixpoint groupOf (k : list string) (groups : list (list string * list Row)) : list Row :=
  match groups with
  | [] => []
  | (k', rs) :: rest => if keyEqb k k' then rs else groupOf k rest
  end.

(** The order of the result: no group has a smaller total than a group
    after it. *)
Definition descending (g h : list string * list Row) : Prop :=
  sumLatency (snd h) <= sumLatency (snd g).

(** A projection to read results with: the digest of the group and its
    total latency. *)
Definition sampleProject (q : Query) (rs : list Row) : Model :=
  [("digest", SStr (match rs with r :: _ => digest r | [] => "" end));
   ("agg_sum_latency", SInt (sumLatency rs))].

(** A row of the statement [digestValue], run under the plan
    [planDigest], with the total latency [latency]. *)
Definition planRow (digestValue planDigest : string) (latency : Z) : Row :=
  {| summary_begin_time := 100; summary_end_time := 200;
     schema_name := "test"; digest := digestValue; digest_text := "select * from t";
     table_names := "test.t"; plan := ""; plan_digest := planDigest;
     stmt_type := "Select"; sum_latency := latency |}.

(** The read of one variable by [querySQLIntVariable]. *)
Definition variableRead (name : string) : Call :=
  CallPluck (Sprintf "SELECT @@GLOBAL.%s as value" [name]) "value".

(** The three reads of [queryStmtConfig], in their order. *)
Definition configReads : list Call :=
  [variableRead stmtEnableVar; variableRead stmtRefreshIntervalVar;
   variableRead stmtHistorySizeVar].

(** A store whose resolver of columns fails with [e]. *)
Definition resolverFails (e : error) : DB :=
  {| history := [];
     onExec := fun _ _ _ => None;
     onPluck := fun _ _ _ => ([], None);
     onColumns := fun _ _ => ([], Some e);
     onFind := fun _ _ => ([], None);
     onScan := fun _ _ => (None, None) |}.

(** The text condition bound to the term [v], on the row [r]. *)
Definition termFound (regexpLike : string -> string -> bool) (r : Row) (v : string) : bool :=
  regexpLike (LOWER (digest_text r)) v
  || regexpLike (LOWER (digest r)) v
  || regexpLike (LOWER (schema_name r)) v
  || regexpLike (LOWER (table_names r)) v
  || regexpLike (LOWER (plan r)) v.

(** A text of white space only. *)
Fixpoint allSpace (s : string) : bool :=
  match s with
  | EmptyString => true
  | String c rest => isSpace c && allSpace rest
  end.

(** A text with no white space and no upper-case letter. *)
Fixpoint plainBytes (s : string) : bool :=
  match s with
  | EmptyString => true
  | String c rest => negb (isSpace c) && negb (isUpper c) && plainBytes rest
  end.

(** * Properties *)

(** ** The configuration accessor *)

Lemma issued_app (db db' : DB) (cs : list Call) :
  history db' = (history db ++ cs)%list -> issued db db' = cs.
Proof.
  intros H. unfold issued. rewrite H.
  rewrite skipn_app, skipn_all, Nat.sub_diag. reflexivity.
Qed.

(** What [querySQLIntVariable] does, by the answer of the store. *)
Lemma querySQLIntVariable_eq (name : string) (db : DB) :
  querySQLIntVariable name db =
  (record db (CallPluck (Sprintf "SELECT @@GLOBAL.%s as value" [name]) "value"),
   let '(values, err) :=
     onPluck db (history db) (Sprintf "SELECT @@GLOBAL.%s as value" [name]) "value" in
   match err, values with
   | Some e, _ => Returned (0, Some e)
   | None, [] => Panicked (IndexOutOfRange 0 0)
   | None, strVal :: _ =>
       if String.eqb strVal "" then Returned (-1, None)
       else match Atoi strVal with
            | inl intVal => Returned (intVal, None)
            | inr e => Returned (0, Some (NumError "Atoi" strVal e))
            end
   end).
Proof.
  unfold querySQLIntVariable, bind, RawPluck.
  destruct (onPluck db (history db) _ "value") as [values [e|]]; [reflexivity|].
  destruct values as [|strVal rest]; [reflexivity|].
  unfold index, nth_error, ret.
  destruct (String.eqb strVal ""); [reflexivity|].
  destruct (Atoi strVal); reflexivity.
Qed.

(** C10.  [querySQLIntVariable] takes [values[0]] unguarded.  After a
    successful read, a list with a first element gives a defined result:
    -1 for the empty string, the parsed integer, or the parse error; a
    list with no element makes the access panic, out of range; so the
    function returns exactly when the list has an element. *)
Theorem querySQLIntVariable_needs_a_row :
  forall (db : DB) (name : string) (values : list string),
    onPluck db (history db) (Sprintf "SELECT @@GLOBAL.%s as value" [name]) "value"
      = (values, None) ->
    (values = [] ->
       snd (querySQLIntVariable name db) = Panicked (IndexOutOfRange 0 0)) /\
    (forall strVal rest, values = strVal :: rest ->
       snd (querySQLIntVariable name db) =
         Returned
           (if String.eqb strVal "" then (-1, None)
            else match Atoi strVal with
                 | inl intVal => (intVal, None)
                 | inr e => (0, Some (NumError "Atoi" strVal e))
                 end)) /\
    ((exists r, snd (querySQLIntVariable name db) = Returned r) <-> values <> []).
Proof.
  intros db name values Hread.
  rewrite querySQLIntVariable_eq, Hread. cbn [snd].
  split; [|split].
  - intros ->. reflexivity.
  - intros strVal rest ->.
    destruct (String.eqb strVal ""); [reflexivity|].
    destruct (Atoi strVal); reflexivity.
  - destruct values as [|strVal rest].
    + split; [intros [r Hr]; discriminate | intros H; contradiction H; reflexivity].
    + split; [intros _; discriminate|intros _].
      destruct (String.eqb strVal ""); [eexists; reflexivity|].
      destruct (Atoi strVal); eexists; reflexivity.
Qed.

Lemma querySQLIntVariable_needs_a_row_witness :
  snd (querySQLIntVariable stmtEnableVar (variablesDB [([], None)]))
    = Panicked (IndexOutOfRange 0 0)
  /\ snd (querySQLIntVariable stmtEnableVar (variablesDB [(["1"], None)]))
    = Returned (1, None).
Proof.
  split.
  - destruct (querySQLIntVariable_needs_a_row
                (variablesDB [([], None)]) stmtEnableVar [] eq_refl) as [H _].
    apply H. reflexivity.
  - destruct (querySQLIntVariable_needs_a_row
                (variablesDB [(["1"], None)]) stmtEnableVar ["1"] eq_refl) as [_ [H _]].
    apply (H "1" []). reflexivity.
Defined.

(** C4.  When the three reads succeed with the integers [enable],
    [refreshInterval] and [historySize], [queryStmtConfig] returns a
    configuration and no error; [Enable] is true exactly when [enable] is
    not zero, and the two sizes are 1800 and 24 when -1 was read and the
    value read otherwise. *)
Theorem queryStmtConfig_defaults :
  forall (db db1 db2 db3 : DB) (enable refreshInterval historySize : Z),
    querySQLIntVariable stmtEnableVar db = (db1, Returned (enable, None)) ->
    querySQLIntVariable stmtRefreshIntervalVar db1
      = (db2, Returned (refreshInterval, None)) ->
    querySQLIntVariable stmtHistorySizeVar db2
      = (db3, Returned (historySize, None)) ->
    exists config,
      queryStmtConfig db = (db3, Returned (Some config, None)) /\
      (Enable config = true <-> enable <> 0) /\
      (refreshInterval = -1 -> RefreshInterval config = 1800) /\
      (refreshInterval <> -1 -> RefreshInterval config = refreshInterval) /\
      (historySize = -1 -> HistorySize config = 24) /\
      (historySize <> -1 -> HistorySize config = historySize).
Proof.
  intros db db1 db2 db3 enable refreshInterval historySize He Hr Hh.
  eexists. split.
  - unfold queryStmtConfig, bind. rewrite He, Hr, Hh. reflexivity.
  - cbn [Enable RefreshInterval HistorySize].
    repeat split.
    + intros H ->. discriminate H.
    + intros H. destruct (Z.eqb_spec enable 0); [contradiction|reflexivity].
    + intros ->. reflexivity.
    + intros H. destruct (Z.eqb_spec refreshInterval (-1)); [contradiction|reflexivity].
    + intros ->. reflexivity.
    + intros H. destruct (Z.eqb_spec historySize (-1)); [contradiction|reflexivity].
Qed.

Lemma queryStmtConfig_defaults_witness :
  snd (queryStmtConfig (variablesDB [([""], None); ([""], None); (["12"], None)]))
    = Returned (Some (mkConfig true 1800 12), None).
Proof.
  set (db := variablesDB [([""], None); ([""], None); (["12"], None)]).
  set (db1 := fst (querySQLIntVariable stmtEnableVar db)).
  set (db2 := fst (querySQLIntVariable stmtRefreshIntervalVar db1)).
  set (db3 := fst (querySQLIntVariable stmtHistorySizeVar db2)).
  destruct (queryStmtConfig_defaults db db1 db2 db3 (-1) (-1) 12
              eq_refl eq_refl eq_refl)
    as [config [Hrun [[_ He] [Hr [_ [_ Hh]]]]]].
  rewrite Hrun. cbn [snd].
  destruct config as [en ri hs]. cbn in He, Hr, Hh.
  rewrite He, Hr, Hh by (reflexivity || discriminate). reflexivity.
Defined.

(** The result and the writes of [updateStmtConfig], by the answers of
    the store. *)
Lemma updateStmtConfig_eq (config : Config) (db : DB) :
  let db1 := record db (enableWrite config) in
  let db2 := record db1 (refreshIntervalWrite config) in
  let db3 := record db2 (historySizeWrite config) in
  updateStmtConfig config db =
  if Enable config then
    match onExec db (history db1) "SET GLOBAL tidb_stmt_summary_refresh_interval = ?"
            [AInt (RefreshInterval config)] with
    | Some e => (db2, Returned (Some e))
    | None =>
        (db3, Returned (onExec db (history db2)
                          "SET GLOBAL tidb_stmt_summary_history_size = ?"
                          [AInt (HistorySize config)]))
    end
  else
    (db1, Returned (onExec db (history db) "SET GLOBAL tidb_enable_stmt_summary = ?"
                      [ABool (Enable config)])).
Proof.
  unfold updateStmtConfig, bind, Exec, ret.
  unfold enableWrite, refreshIntervalWrite, historySizeWrite.
  change (Sprintf "SET GLOBAL %s = ?" [stmtEnableVar])
    with "SET GLOBAL tidb_enable_stmt_summary = ?".
  change (Sprintf "SET GLOBAL %s = ?" [stmtRefreshIntervalVar])
    with "SET GLOBAL tidb_stmt_summary_refresh_interval = ?".
  change (Sprintf "SET GLOBAL %s = ?" [stmtHistorySizeVar])
    with "SET GLOBAL tidb_stmt_summary_history_size = ?".
  destruct (Enable config); [|reflexivity].
  change (onExec (record db ?c)) with (onExec db).
  destruct (onExec db _ "SET GLOBAL tidb_stmt_summary_refresh_interval = ?" _);
    reflexivity.
Qed.

(** C1.  On a store whose first write fails and whose other writes
    succeed, [updateStmtConfig] with [Enable] set issues all three writes
    and returns no error: the error of the enabled-flag write is
    overwritten by the result of the next write. *)
Theorem updateStmtConfig_loses_enable_error :
  let db := writeFailsAt 0 (StoreError "write failed") in
  let config := mkConfig true 1800 24 in
  onExec db (history db) "SET GLOBAL tidb_enable_stmt_summary = ?" [ABool true]
    = Some (StoreError "write failed") /\
  issued db (fst (updateStmtConfig config db))
    = [enableWrite config; refreshIntervalWrite config; historySizeWrite config] /\
  snd (updateStmtConfig config db) = Returned None.
Proof. repeat split. Qed.

(** C5, as stated, fails: with [Enable] set, on a store whose second
    write fails, two writes are issued, not three. *)
Lemma updateStmtConfig_not_always_three_writes :
  let db := writeFailsAt 1 (StoreError "write failed") in
  let config := mkConfig true 1800 24 in
  Enable config = true /\
  issued db (fst (updateStmtConfig config db))
    = [enableWrite config; refreshIntervalWrite config] /\
  List.length (issued db (fst (updateStmtConfig config db))) <> 3%nat.
Proof. repeat split. discriminate. Qed.

(** C5, amended.  [updateStmtConfig] writes the enabled flag first.  With
    [Enable] unset that is its only write.  With [Enable] set it writes
    the refresh interval next, and the history size after it only when
    the write of the refresh interval succeeded: three writes then, two
    when that write failed. *)
Theorem updateStmtConfig_writes :
  forall (config : Config) (db : DB),
    issued db (fst (updateStmtConfig config db)) =
    enableWrite config ::
      (if Enable config then
         refreshIntervalWrite config ::
           match onExec db (history db ++ [enableWrite config])
                   "SET GLOBAL tidb_stmt_summary_refresh_interval = ?"
                   [AInt (RefreshInterval config)] with
           | None => [historySizeWrite config]
           | Some _ => []
           end
       else []).
Proof.
  intros config db. apply issued_app.
  rewrite updateStmtConfig_eq. cbn zeta.
  destruct (Enable config); [|reflexivity].
  cbn [record history].
  destruct (onExec db _ _ _); cbn [fst record history];
    repeat rewrite <- app_assoc; reflexivity.
Qed.

(** ** Pattern search *)

Lemma special_false_neq (c d : ascii) :
  special c = false -> special d = true -> Ascii.eqb c d = false.
Proof.
  intros Hc Hd. destruct (Ascii.eqb_spec c d) as [->|]; [|reflexivity].
  rewrite Hc in Hd. discriminate.
Qed.

Lemma special_true_not_b (c : ascii) :
  special c = true -> Ascii.eqb c "b" = false.
Proof.
  intros Hc. destruct (Ascii.eqb_spec c "b") as [->|]; [|reflexivity].
  discriminate Hc.
Qed.

(** A quoted text is read back as the literal bytes of the text. *)
Lemma parseFrom_QuoteMeta (s rest : string) (cur : list Regexp.atom) :
  Regexp.parseFrom cur (QuoteMeta s ++ rest) =
  Regexp.parseFrom (cur ++ map Regexp.Lit (list_ascii_of_string s)) rest.
Proof.
  revert cur. induction s as [|c s IH]; intros cur.
  - cbn. rewrite app_nil_r. reflexivity.
  - cbn [QuoteMeta list_ascii_of_string map].
    destruct (special c) eqn:Hc.
    + cbn [String.append Regexp.parseFrom].
      rewrite Ascii.eqb_refl, (special_true_not_b c Hc), Hc, IH.
      rewrite <- app_assoc. reflexivity.
    + cbn [String.append Regexp.parseFrom].
      rewrite (special_false_neq c "\" Hc eq_refl),
              (special_false_neq c "|" Hc eq_refl), Hc, IH.
      rewrite <- app_assoc. reflexivity.
Qed.

Lemma list_ascii_of_string_app (a b : string) :
  list_ascii_of_string (a ++ b) =
  (list_ascii_of_string a ++ list_ascii_of_string b)%list.
Proof. induction a as [|c a IH]; cbn; [reflexivity|]. rewrite IH. reflexivity. Qed.

Lemma string_app_assoc (a b c : string) : (a ++ b) ++ c = a ++ (b ++ c).
Proof. induction a as [|x a IH]; cbn; [reflexivity|]. rewrite IH. reflexivity. Qed.

Lemma string_app_nil_r (a : string) : a ++ "" = a.
Proof. induction a as [|x a IH]; cbn; [reflexivity|]. rewrite IH. reflexivity. Qed.

Lemma parseFrom_schemaPattern (schema rest : string) :
  Regexp.parseFrom [] (schemaPattern schema ++ rest) =
  match rest with
  | EmptyString => Some [schemaAtoms schema]
  | String c rest' =>
      if Ascii.eqb c "|" then
        option_map (cons (schemaAtoms schema)) (Regexp.parseFrom [] rest')
      else Regexp.parseFrom (schemaAtoms schema) rest
  end.
Proof.
  unfold schemaPattern, schemaAtoms.
  cbn [String.append Regexp.parseFrom]. cbn [Ascii.eqb Bool.eqb].
  rewrite string_app_assoc, parseFrom_QuoteMeta.
  cbn [String.append Regexp.parseFrom]. cbn [Ascii.eqb Bool.eqb].
  change (special ".") with true. cbn iota.
  rewrite list_ascii_of_string_app, map_app. cbn [app list_ascii_of_string map].
  destruct rest as [|c rest']; [reflexivity|].
  destruct (Ascii.eqb c "|") eqn:Hbar; [|reflexivity].
  apply Ascii.eqb_eq in Hbar. subst c. reflexivity.
Qed.

(** The pattern of a non-empty list of schemas reads as one alternative
    per schema: a word boundary, the bytes of the name, a dot. *)
Lemma parse_schema_patterns (schemas : list string) :
  schemas <> [] ->
  Regexp.parse (Join (map schemaPattern schemas) "|") = Some (map schemaAtoms schemas).
Proof.
  unfold Regexp.parse.
  induction schemas as [|schema rest IH]; intros Hne; [contradiction Hne; reflexivity|].
  destruct rest as [|schema' rest'].
  - cbn [map Join].
    rewrite <- (string_app_nil_r (schemaPattern schema)).
    rewrite parseFrom_schemaPattern. reflexivity.
  - change (Join (map schemaPattern (schema :: schema' :: rest')) "|")
      with (schemaPattern schema ++ String "|" (Join (map schemaPattern (schema' :: rest')) "|")).
    rewrite parseFrom_schemaPattern. cbn [Ascii.eqb Bool.eqb].
    rewrite IH by discriminate. reflexivity.
Qed.

Lemma matchAt_literals (l s : string) (prev : option ascii) :
  Regexp.matchAt (map Regexp.Lit (list_ascii_of_string l)) prev s = true <->
  exists post, s = l ++ post.
Proof.
  revert prev s. induction l as [|c l IH]; intros prev s.
  - cbn. split; [intros _; exists s; reflexivity | reflexivity].
  - cbn [list_ascii_of_string map Regexp.matchAt String.append].
    destruct s as [|d s'].
    + split; [discriminate | intros [post H]; discriminate H].
    + rewrite andb_true_iff, IH, Ascii.eqb_eq. split.
      * intros [-> [post ->]]. exists post. reflexivity.
      * intros [post H]. injection H as -> ->. split; [reflexivity|].
        exists post. reflexivity.
Qed.

Lemma matchAt_schemaAtoms (schema s : string) (prev : option ascii) :
  Regexp.matchAt (schemaAtoms schema) prev s = true <->
  xorb (Regexp.wordBefore prev) (Regexp.wordAfter s) = true /\
  exists post, s = schema ++ "." ++ post.
Proof.
  unfold schemaAtoms. cbn [Regexp.matchAt].
  rewrite andb_true_iff, matchAt_literals.
  split; intros [Hb [post ->]]; (split; [exact Hb|]); exists post.
  - apply string_app_assoc.
  - symmetry. apply string_app_assoc.
Qed.

Lemma prevAt_cons (prev : option ascii) (c : ascii) (pre : string) :
  prevAt prev (String c pre) = prevAt (Some c) pre.
Proof.
  unfold prevAt. destruct pre as [|d pre]; [reflexivity|].
  change (lastByte (String c (String d pre))) with (lastByte (String d pre)).
  assert (H : exists x, lastByte (String d pre) = Some x).
  { clear c. revert d. induction pre as [|e pre IH]; intros d.
    - exists d. reflexivity.
    - destruct (IH e) as [x Hx]. exists x. exact Hx. }
  destruct H as [x ->]. reflexivity.
Qed.

(** The search succeeds exactly when an alternative matches at some
    position of the subject. *)
Lemma searchFrom_spec (alts : list (list Regexp.atom)) (s : string) (prev : option ascii) :
  Regexp.searchFrom alts prev s = true <->
  exists pre post,
    s = pre ++ post /\
    existsb (fun atoms => Regexp.matchAt atoms (prevAt prev pre) post) alts = true.
Proof.
  revert prev. induction s as [|c s IH]; intros prev.
  - cbn [Regexp.searchFrom]. rewrite orb_false_r. split.
    + intros H. exists "", "". split; [reflexivity | exact H].
    + intros [pre [post [Heq H]]].
      destruct pre; [|discriminate Heq]. cbn in Heq. subst post. exact H.
  - cbn [Regexp.searchFrom]. rewrite orb_true_iff, IH. split.
    + intros [H | [pre [post [-> H]]]].
      * exists "", (String c s). split; [reflexivity | exact H].
      * exists (String c pre), post. split; [reflexivity|].
        rewrite prevAt_cons. exact H.
    + intros [pre [post [Heq H]]]. destruct pre as [|d pre].
      * cbn in Heq. subst post. left. exact H.
      * cbn in Heq. injection Heq as -> ->. right.
        exists pre, post. split; [reflexivity|].
        rewrite prevAt_cons in H. exact H.
Qed.

(** The schema pattern finds exactly the texts that hold one of the
    schemas followed by a dot, starting at a word boundary. *)
Lemma REGEXP_schema_patterns (schemas : list string) (tableNames : string) :
  schemas <> [] ->
  Regexp.REGEXP tableNames (Join (map schemaPattern schemas) "|") = true <->
  exists schema, In schema schemas /\ referencesSchema schema tableNames.
Proof.
  intros Hne. unfold Regexp.REGEXP.
  rewrite (parse_schema_patterns schemas Hne), searchFrom_spec.
  unfold referencesSchema. split.
  - intros [pre [post [Heq H]]].
    apply existsb_exists in H. destruct H as [atoms [Hin Hm]].
    apply in_map_iff in Hin. destruct Hin as [schema [<- Hin]].
    apply matchAt_schemaAtoms in Hm. destruct Hm as [Hb [post' ->]].
    exists schema. split; [exact Hin|].
    exists pre, post'. split; [exact Heq|].
    unfold prevAt in Hb. destruct (lastByte pre); exact Hb.
  - intros [schema [Hin [pre [post [Heq Hb]]]]].
    exists pre, (schema ++ "." ++ post). split; [exact Heq|].
    apply existsb_exists. exists (schemaAtoms schema).
    split; [apply in_map; exact Hin|].
    apply matchAt_schemaAtoms. split.
    + unfold prevAt. destruct (lastByte pre); exact Hb.
    + exists post. reflexivity.
Qed.

(** ** The shape of the queries *)

Lemma schema_loop (schemas : list string) (regex : list string) :
  fold_left
    (fun regex schema => (regex ++ [Sprintf "\b%s\." [QuoteMeta schema]])%list)
    schemas regex
  = (regex ++ map schemaPattern schemas)%list.
Proof.
  revert regex. induction schemas as [|schema rest IH]; intros regex.
  - cbn. rewrite app_nil_r. reflexivity.
  - cbn [fold_left map]. rewrite IH, <- app_assoc. reflexivity.
Qed.

Lemma where_loop (frag : string) (args : string -> list Arg)
    (terms : list string) (q : Query) :
  fold_left (fun query v => Where query frag (args v)) terms q =
  {| qSelect := qSelect q; qTable := qTable q;
     qWhere := qWhere q ++ map (fun v => mkClause frag (args v)) terms;
     qGroup := qGroup q; qOrder := qOrder q |}.
Proof.
  revert q. induction terms as [|v rest IH]; intros q.
  - cbn. rewrite app_nil_r. destruct q; reflexivity.
  - cbn [fold_left map]. rewrite IH. cbn. rewrite <- app_assoc. reflexivity.
Qed.

Lemma length_pos_list {A} (l : list A) :
  (0 <? List.length l)%nat = match l with [] => false | _ => true end.
Proof. destruct l; reflexivity. Qed.

(** The statement query in full: the projection, the table, the window
    condition, then the schema condition, the type condition and one text
    condition per term, each present only when its filter is given, the
    grouping and the ordering. *)
Lemma statementsQuery_eq (selectStmt : string) (beginTime endTime : Z)
    (schemas stmtTypes : list string) (text : string) :
  statementsQuery selectStmt beginTime endTime schemas stmtTypes text =
  {| qSelect := selectStmt;
     qTable := statementsTable;
     qWhere :=
       windowClause beginTime endTime ::
       match schemas with [] => [] | _ => [schemaClause schemas] end ++
       match stmtTypes with [] => [] | _ => [stmtTypeClause stmtTypes] end ++
       map textClause (Fields (ToLower text));
     qGroup := Some "schema_name, digest";
     qOrder := Some "agg_sum_latency DESC" |}.
Proof.
  unfold statementsQuery.
  rewrite schema_loop, !length_pos_list. cbn [app].
  change (fun query v => Where query _ [AStr v; AStr v; AStr v; AStr v; AStr v])
    with (fun query v => Where query textFragment
                           ((fun v => [AStr v; AStr v; AStr v; AStr v; AStr v]) v)).
  rewrite where_loop.
  destruct schemas as [|s0 ss], stmtTypes as [|t0 ts], text as [|c text];
    reflexivity.
Qed.

Lemma plansQuery_eq (selectStmt : string) (beginTime endTime : Z)
    (schemaName digest : string) :
  plansQuery selectStmt beginTime endTime schemaName digest =
  {| qSelect := selectStmt;
     qTable := statementsTable;
     qWhere :=
       [windowClause beginTime endTime;
        mkClause "schema_name = ?" [AStr schemaName];
        mkClause "digest = ?" [AStr digest]];
     qGroup := Some "plan_digest";
     qOrder := None |}.
Proof. reflexivity. Qed.

Lemma planDetailQuery_eq (selectStmt : string) (beginTime endTime : Z)
    (schemaName digest : string) (plans : list string) :
  planDetailQuery selectStmt beginTime endTime schemaName digest plans =
  {| qSelect := selectStmt;
     qTable := statementsTable;
     qWhere :=
       [windowClause beginTime endTime;
        mkClause "schema_name = ?" [AStr schemaName];
        mkClause "digest = ?" [AStr digest]] ++
       match plans with [] => [] | _ => [mkClause "plan_digest in (?)" [AStrs plans]] end;
     qGroup := None;
     qOrder := None |}.
Proof. destruct plans; reflexivity. Qed.

(** ** The meaning of the conditions *)

Section Conditions.

Variable regexpLike : string -> string -> bool.

Lemma clauseHolds_window (r : Row) (beginTime endTime : Z) :
  clauseHolds regexpLike r (windowClause beginTime endTime) =
  (beginTime <=? summary_begin_time r) && (summary_end_time r <=? endTime).
Proof. reflexivity. Qed.

Lemma clauseHolds_schema (r : Row) (schemas : list string) :
  clauseHolds regexpLike r (schemaClause schemas) =
  regexpLike (table_names r) (Join (map schemaPattern schemas) "|").
Proof. reflexivity. Qed.

Lemma clauseHolds_stmtType (r : Row) (stmtTypes : list string) :
  clauseHolds regexpLike r (stmtTypeClause stmtTypes) =
  existsb (String.eqb (stmt_type r)) stmtTypes.
Proof. reflexivity. Qed.

Lemma clauseHolds_text (r : Row) (v : string) :
  clauseHolds regexpLike r (textClause v) =
  regexpLike (LOWER (digest_text r)) v
  || regexpLike (LOWER (digest r)) v
  || regexpLike (LOWER (schema_name r)) v
  || regexpLike (LOWER (table_names r)) v
  || regexpLike (LOWER (plan r)) v.
Proof. reflexivity. Qed.

Lemma clauseHolds_schema_name (r : Row) (v : string) :
  clauseHolds regexpLike r (mkClause "schema_name = ?" [AStr v]) =
  String.eqb (schema_name r) v.
Proof. reflexivity. Qed.

Lemma clauseHolds_digest (r : Row) (v : string) :
  clauseHolds regexpLike r (mkClause "digest = ?" [AStr v]) =
  String.eqb (digest r) v.
Proof. reflexivity. Qed.


Lemma window_holds_iff (r : Row) (beginTime endTime : Z) :
  clauseHolds regexpLike r (windowClause beginTime endTime) = true <->
  beginTime <= summary_begin_time r /\ summary_end_time r <= endTime.
Proof.
  rewrite clauseHolds_window, andb_true_iff, !Z.leb_le. reflexivity.
Qed.

Lemma member_iff (x : string) (l : list string) :
  existsb (String.eqb x) l = true <-> In x l.
Proof.
  rewrite existsb_exists. split.
  - intros [y [Hin Heq]]. apply String.eqb_eq in Heq. subst y. exact Hin.
  - intros Hin. exists x. split; [exact Hin | apply String.eqb_refl].
Qed.

Lemma rowMatches_window (q : Query) (beginTime endTime : Z)
    (rest : list Clause) (r : Row) :
  qWhere q = windowClause beginTime endTime :: rest ->
  rowMatches regexpLike q r = true ->
  beginTime <= summary_begin_time r /\ summary_end_time r <= endTime.
Proof.
  intros Hq Hm. unfold rowMatches in Hm. rewrite Hq in Hm.
  cbn [forallb] in Hm. apply andb_true_iff in Hm.
  apply window_holds_iff. exact (proj1 Hm).
Qed.

End Conditions.

(** ** The queries the functions send *)

Lemma AnyText_statementsQuery_eq (toLower : string -> string)
    (fields : string -> list string) (selectStmt : string)
    (beginTime endTime : Z) (schemas stmtTypes : list string) (text : string) :
  AnyText.statementsQuery toLower fields selectStmt beginTime endTime schemas
    stmtTypes text =
  {| qSelect := selectStmt;
     qTable := statementsTable;
     qWhere :=
       windowClause beginTime endTime ::
       match schemas with [] => [] | _ => [schemaClause schemas] end ++
       match stmtTypes with [] => [] | _ => [stmtTypeClause stmtTypes] end ++
       match text with
       | EmptyString => []
       | _ => map textClause (fields (toLower text))
       end;
     qGroup := Some "schema_name, digest";
     qOrder := Some "agg_sum_latency DESC" |}.
Proof.
  unfold AnyText.statementsQuery.
  rewrite schema_loop, !length_pos_list. cbn [app].
  change (fun query v => Where query _ [AStr v; AStr v; AStr v; AStr v; AStr v])
    with (fun query v => Where query textFragment
                           ((fun v => [AStr v; AStr v; AStr v; AStr v; AStr v]) v)).
  rewrite where_loop.
  destruct schemas as [|s0 ss], stmtTypes as [|t0 ts], text as [|c text];
    cbn [String.length Nat.ltb Nat.leb qWhere app map];
    rewrite ?app_nil_r; reflexivity.
Qed.

(** The definitions for ASCII text are the instances of the general
    ones. *)
Lemma statementsQuery_instance (selectStmt : string) (beginTime endTime : Z)
    (schemas stmtTypes : list string) (text : string) :
  AnyText.statementsQuery ToLower Fields selectStmt beginTime endTime schemas
    stmtTypes text
  = statementsQuery selectStmt beginTime endTime schemas stmtTypes text.
Proof. reflexivity. Qed.

Lemma queryStatements_instance (s : Service) (beginTime endTime : Z)
    (schemas stmtTypes : list string) (text : string) (reqFields : list string) :
  AnyText.queryStatements ToLower Fields s beginTime endTime schemas stmtTypes
    text reqFields
  = queryStatements s beginTime endTime schemas stmtTypes text reqFields.
Proof. reflexivity. Qed.

Lemma clauseHolds_instance (regexpLike : string -> string -> bool)
    (r : Row) (c : Clause) :
  AnyText.clauseHolds LOWER regexpLike r c = clauseHolds regexpLike r c.
Proof.
  unfold AnyText.clauseHolds.
  destruct (String.eqb (fragment c) _) eqn:E; [|reflexivity].
  apply String.eqb_eq in E. unfold clauseHolds. rewrite E. reflexivity.
Qed.

(** With the columns resolved and the projection built, each function
    sends one query, the one it has built, and returns the answer. *)
Lemma queryStatements_runs (toLower : string -> string)
    (fields : string -> list string) (s : Service) (db : DB)
    (columns : list string) (selectStmt : string) (beginTime endTime : Z)
    (schemas stmtTypes : list string) (text : string) (reqFields : list string) :
  onColumns db (history db) statementsTable = (columns, None) ->
  genSelectStmt s columns reqFields = (selectStmt, None) ->
  let query :=
    AnyText.statementsQuery toLower fields selectStmt beginTime endTime schemas
      stmtTypes text in
  let run :=
    AnyText.queryStatements toLower fields s beginTime endTime schemas stmtTypes
      text reqFields db in
  issued db (fst run) = [CallColumns statementsTable; CallFind query] /\
  snd run = Returned (onFind db (history db ++ [CallColumns statementsTable]) query).
Proof.
  intros Hcols Hsel query run. subst run.
  unfold AnyText.queryStatements, bind, GetTableColumnNames, Find.
  rewrite Hcols, Hsel. cbn [record history onFind]. fold query.
  destruct (onFind db _ query) as [result err]. unfold ret. cbn [fst snd].
  split; [|reflexivity].
  apply issued_app. cbn [record history]. rewrite <- app_assoc. reflexivity.
Qed.

Lemma queryPlans_runs (s : Service) (db : DB) (columns : list string)
    (selectStmt : string) (beginTime endTime : Z) (schemaName digestValue : string) :
  onColumns db (history db) statementsTable = (columns, None) ->
  genSelectStmt s columns planFields = (selectStmt, None) ->
  let query := plansQuery selectStmt beginTime endTime schemaName digestValue in
  let run := queryPlans s beginTime endTime schemaName digestValue db in
  issued db (fst run) = [CallColumns statementsTable; CallFind query] /\
  snd run = Returned (onFind db (history db ++ [CallColumns statementsTable]) query).
Proof.
  intros Hcols Hsel query run. subst run.
  unfold queryPlans, bind, GetTableColumnNames, Find.
  rewrite Hcols, Hsel. cbn [record history onFind]. fold query.
  destruct (onFind db _ query) as [result err]. unfold ret. cbn [fst snd].
  split; [|reflexivity].
  apply issued_app. cbn [record history]. rewrite <- app_assoc. reflexivity.
Qed.

Lemma queryPlanDetail_runs (s : Service) (db : DB) (columns : list string)
    (selectStmt : string) (beginTime endTime : Z) (schemaName digestValue : string)
    (plans : list string) :
  onColumns db (history db) statementsTable = (columns, None) ->
  genSelectStmt s columns ["*"] = (selectStmt, None) ->
  let query :=
    planDetailQuery selectStmt beginTime endTime schemaName digestValue plans in
  let run := queryPlanDetail s beginTime endTime schemaName digestValue plans db in
  let answer := onScan db (history db ++ [CallColumns statementsTable]) query in
  issued db (fst run) = [CallColumns statementsTable; CallScan query] /\
  snd run = Returned (match fst answer with Some m => m | None => zeroModel end,
                      snd answer).
Proof.
  intros Hcols Hsel query run answer. subst run answer.
  unfold queryPlanDetail, bind, GetTableColumnNames, Scan.
  rewrite Hcols, Hsel. cbn [record history onScan]. fold query.
  destruct (onScan db _ query) as [row err]. unfold ret. cbn [fst snd].
  split; [|reflexivity].
  apply issued_app. cbn [record history]. rewrite <- app_assoc. reflexivity.
Qed.

Section AnyConditions.

Variable lower : string -> string.
Variable regexpLike : string -> string -> bool.

Lemma AnyText_clauseHolds_window (r : Row) (beginTime endTime : Z) :
  AnyText.clauseHolds lower regexpLike r (windowClause beginTime endTime) =
  (beginTime <=? summary_begin_time r) && (summary_end_time r <=? endTime).
Proof. reflexivity. Qed.

Lemma AnyText_clauseHolds_schema (r : Row) (schemas : list string) :
  AnyText.clauseHolds lower regexpLike r (schemaClause schemas) =
  regexpLike (table_names r) (Join (map schemaPattern schemas) "|").
Proof. reflexivity. Qed.

Lemma AnyText_clauseHolds_stmtType (r : Row) (stmtTypes : list string) :
  AnyText.clauseHolds lower regexpLike r (stmtTypeClause stmtTypes) =
  existsb (String.eqb (stmt_type r)) stmtTypes.
Proof. reflexivity. Qed.

Lemma AnyText_clauseHolds_text (r : Row) (v : string) :
  AnyText.clauseHolds lower regexpLike r (textClause v) =
  regexpLike (lower (digest_text r)) v
  || regexpLike (lower (digest r)) v
  || regexpLike (lower (schema_name r)) v
  || regexpLike (lower (table_names r)) v
  || regexpLike (lower (plan r)) v.
Proof. reflexivity. Qed.

Lemma AnyText_window_holds_iff (r : Row) (beginTime endTime : Z) :
  AnyText.clauseHolds lower regexpLike r (windowClause beginTime endTime) = true <->
  beginTime <= summary_begin_time r /\ summary_end_time r <= endTime.
Proof.
  rewrite AnyText_clauseHolds_window, andb_true_iff, !Z.leb_le. reflexivity.
Qed.

Lemma AnyText_rowMatches_window (q : Query) (beginTime endTime : Z)
    (rest : list Clause) (r : Row) :
  qWhere q = windowClause beginTime endTime :: rest ->
  AnyText.rowMatches lower regexpLike q r = true ->
  beginTime <= summary_begin_time r /\ summary_end_time r <= endTime.
Proof.
  intros Hq Hm. unfold AnyText.rowMatches in Hm. rewrite Hq in Hm.
  cbn [forallb] in Hm. apply andb_true_iff in Hm.
  apply AnyText_window_holds_iff. exact (proj1 Hm).
Qed.

Lemma AnyText_textClauses_hold_iff (r : Row) (terms : list string) :
  forallb (AnyText.clauseHolds lower regexpLike r) (map textClause terms) = true <->
  forall v, In v terms ->
    regexpLike (lower (digest_text r)) v = true \/
    regexpLike (lower (digest r)) v = true \/
    regexpLike (lower (schema_name r)) v = true \/
    regexpLike (lower (table_names r)) v = true \/
    regexpLike (lower (plan r)) v = true.
Proof.
  rewrite forallb_forall. split.
  - intros H v Hv.
    specialize (H (textClause v) (in_map textClause _ _ Hv)).
    rewrite AnyText_clauseHolds_text in H.
    repeat (apply orb_true_iff in H; destruct H as [H|H]); auto 6.
  - intros H c Hc. apply in_map_iff in Hc. destruct Hc as [v [<- Hv]].
    rewrite AnyText_clauseHolds_text.
    destruct (H v Hv) as [E|[E|[E|[E|E]]]]; rewrite E;
      repeat rewrite orb_true_r; reflexivity.
Qed.

End AnyConditions.

(** ** The filters of the statement queries *)

(** C7.  With the columns resolved and the projection built,
    [queryStatements], [queryPlans] and [queryPlanDetail] each send one
    query and return the store's answer to it, and the first condition
    of that query is the window condition bound to [beginTime] and
    [endTime], whole seconds both.  The condition holds on a row exactly
    when the window begins at or after [beginTime] and ends at or before
    [endTime], so every row such a query selects has its window
    contained.  A window [100, 200] is kept for 50 and 250 and dropped
    for 150 and 250. *)
Theorem window_containment :
  forall (toLower : string -> string) (fields : string -> list string)
         (lower : string -> string) (regexpLike : string -> string -> bool)
         (s : Service) (db : DB) (columns : list string)
         (beginTime endTime : Z) (schemas stmtTypes : list string)
         (text : string) (reqFields : list string)
         (schemaName digest : string) (plans : list string),
    onColumns db (history db) statementsTable = (columns, None) ->
    (forall selectStmt,
        genSelectStmt s columns reqFields = (selectStmt, None) ->
        let run := AnyText.queryStatements toLower fields s beginTime endTime
                     schemas stmtTypes text reqFields db in
        exists query rest,
          issued db (fst run) = [CallColumns statementsTable; CallFind query] /\
          snd run = Returned (onFind db (history db ++ [CallColumns statementsTable])
                                query) /\
          qWhere query = windowClause beginTime endTime :: rest) /\
    (forall selectStmt,
        genSelectStmt s columns planFields = (selectStmt, None) ->
        let run := queryPlans s beginTime endTime schemaName digest db in
        exists query rest,
          issued db (fst run) = [CallColumns statementsTable; CallFind query] /\
          snd run = Returned (onFind db (history db ++ [CallColumns statementsTable])
                                query) /\
          qWhere query = windowClause beginTime endTime :: rest) /\
    (forall selectStmt,
        genSelectStmt s columns ["*"] = (selectStmt, None) ->
        let run := queryPlanDetail s beginTime endTime schemaName digest plans db in
        exists query rest,
          issued db (fst run) = [CallColumns statementsTable; CallScan query] /\
          snd run =
            Returned
              (match fst (onScan db (history db ++ [CallColumns statementsTable])
                            query) with
               | Some m => m
               | None => zeroModel
               end,
               snd (onScan db (history db ++ [CallColumns statementsTable]) query)) /\
          qWhere query = windowClause beginTime endTime :: rest) /\
    (forall r : Row,
        AnyText.clauseHolds lower regexpLike r (windowClause beginTime endTime) = true <->
        beginTime <= summary_begin_time r /\ summary_end_time r <= endTime) /\
    (forall (query : Query) (rest : list Clause) (r : Row),
        qWhere query = windowClause beginTime endTime :: rest ->
        AnyText.rowMatches lower regexpLike query r = true ->
        beginTime <= summary_begin_time r /\ summary_end_time r <= endTime) /\
    AnyText.clauseHolds lower regexpLike (sampleRow 100 200 "" "")
      (windowClause 50 250) = true /\
    AnyText.clauseHolds lower regexpLike (sampleRow 100 200 "" "")
      (windowClause 150 250) = false.
Proof.
  intros toLower fields lower regexpLike s db columns beginTime endTime schemas
         stmtTypes text reqFields schemaName digest plans Hcols.
  split; [|split; [|split; [|split; [|split; [|split]]]]].
  - intros selectStmt Hsel run.
    destruct (queryStatements_runs toLower fields s db columns selectStmt
                beginTime endTime schemas stmtTypes text reqFields Hcols Hsel)
      as [Hissued Hresult].
    eexists. eexists. split; [exact Hissued|]. split; [exact Hresult|].
    rewrite AnyText_statementsQuery_eq. reflexivity.
  - intros selectStmt Hsel run.
    destruct (queryPlans_runs s db columns selectStmt beginTime endTime
                schemaName digest Hcols Hsel) as [Hissued Hresult].
    eexists. eexists. split; [exact Hissued|]. split; [exact Hresult|].
    rewrite plansQuery_eq. reflexivity.
  - intros selectStmt Hsel run.
    destruct (queryPlanDetail_runs s db columns selectStmt beginTime endTime
                schemaName digest plans Hcols Hsel) as [Hissued Hresult].
    eexists. eexists. split; [exact Hissued|]. split; [exact Hresult|].
    rewrite planDetailQuery_eq. reflexivity.
  - intros r. apply AnyText_window_holds_iff.
  - intros query rest r. apply AnyText_rowMatches_window.
  - reflexivity.
  - reflexivity.
Qed.

Lemma window_containment_witness :
  exists query rest,
    issued (emptyDB ["digest"])
      (fst (queryPlans allColumnsService 50 250 "test" "d1" (emptyDB ["digest"])))
    = [CallColumns statementsTable; CallFind query] /\
    snd (queryPlans allColumnsService 50 250 "test" "d1" (emptyDB ["digest"]))
    = Returned (onFind (emptyDB ["digest"]) [CallColumns statementsTable] query) /\
    qWhere query = windowClause 50 250 :: rest.
Proof.
  destruct (window_containment ToLower Fields LOWER Regexp.REGEXP allColumnsService
              (emptyDB ["digest"]) ["digest"] 50 250 [] [] "" ["digest"]
              "test" "d1" [] eq_refl) as [_ [H _]].
  exact (H "digest" eq_refl).
Defined.

(** C3.  For a non-empty search text, with the columns resolved and the
    projection built, [queryStatements] sends one query and returns the
    store's answer to it.  That query ends with one text condition per
    term of the lower-cased text split at white space, whatever the text.
    Every one of them has the same fixed fragment, with the term bound
    five times and nowhere in the fragment.  They all hold on a row
    exactly when every term is found by the pattern search in the
    lower-cased digest text, digest, schema name, table names or plan. *)
Theorem text_filter :
  forall (toLower : string -> string) (fields : string -> list string)
         (lower : string -> string) (regexpLike : string -> string -> bool)
         (s : Service) (db : DB) (columns : list string) (selectStmt : string)
         (beginTime endTime : Z) (schemas stmtTypes : list string)
         (text : string) (reqFields : list string) (r : Row),
    text <> "" ->
    onColumns db (history db) statementsTable = (columns, None) ->
    genSelectStmt s columns reqFields = (selectStmt, None) ->
    let terms := fields (toLower text) in
    let run := AnyText.queryStatements toLower fields s beginTime endTime
                 schemas stmtTypes text reqFields db in
    exists query,
      issued db (fst run) = [CallColumns statementsTable; CallFind query] /\
      snd run = Returned (onFind db (history db ++ [CallColumns statementsTable])
                            query) /\
      (exists before,
          qWhere query = (before ++ map textClause terms)%list /\
          Forall (fun c => fragment c <> textFragment) before) /\
      (forall v, fragment (textClause v) = textFragment /\
                 bound (textClause v) = [AStr v; AStr v; AStr v; AStr v; AStr v]) /\
      (forallb (AnyText.clauseHolds lower regexpLike r) (map textClause terms) = true <->
       forall v, In v terms ->
         regexpLike (lower (digest_text r)) v = true \/
         regexpLike (lower (digest r)) v = true \/
         regexpLike (lower (schema_name r)) v = true \/
         regexpLike (lower (table_names r)) v = true \/
         regexpLike (lower (plan r)) v = true).
Proof.
  intros toLower fields lower regexpLike s db columns selectStmt beginTime endTime
         schemas stmtTypes text reqFields r Htext Hcols Hsel terms run.
  destruct (queryStatements_runs toLower fields s db columns selectStmt
              beginTime endTime schemas stmtTypes text reqFields Hcols Hsel)
    as [Hissued Hresult].
  eexists. split; [exact Hissued|]. split; [exact Hresult|].
  split; [|split].
  - rewrite AnyText_statementsQuery_eq. cbn [qWhere].
    exists (windowClause beginTime endTime ::
            match schemas with [] => [] | _ => [schemaClause schemas] end ++
            match stmtTypes with [] => [] | _ => [stmtTypeClause stmtTypes] end).
    split.
    + destruct text as [|c text]; [contradiction Htext; reflexivity|].
      cbn [app]. rewrite <- app_assoc. reflexivity.
    + constructor; [discriminate|].
      apply Forall_app. split.
      * destruct schemas; constructor; [discriminate | constructor].
      * destruct stmtTypes; constructor; [discriminate | constructor].
  - intros v. split; reflexivity.
  - apply AnyText_textClauses_hold_iff.
Qed.

(** With the text "select tpcc", a row in which only "select" is found
    is dropped and a row with both terms is kept. *)
Lemma text_filter_witness :
  forallb (AnyText.clauseHolds LOWER Regexp.REGEXP
             (sampleRow 0 0 "test.t" "SELECT * FROM t"))
          (map textClause (Fields (ToLower "select tpcc"))) = false /\
  forallb (AnyText.clauseHolds LOWER Regexp.REGEXP
             (sampleRow 0 0 "tpcc.orders" "SELECT * FROM orders"))
          (map textClause (Fields (ToLower "select tpcc"))) = true.
Proof.
  split.
  - destruct (forallb _ _) eqn:E; [|reflexivity].
    assert (Htext : "select tpcc" <> "") by discriminate.
    destruct (text_filter ToLower Fields LOWER Regexp.REGEXP allColumnsService
                (emptyDB ["digest"]) ["digest"] "digest" 0 0 [] [] "select tpcc"
                ["digest"] (sampleRow 0 0 "test.t" "SELECT * FROM t")
                Htext eq_refl eq_refl) as [query [_ [_ [_ [_ [H _]]]]]].
    specialize (H E "tpcc" (or_intror (or_introl eq_refl))).
    destruct H as [H|[H|[H|[H|H]]]]; discriminate H.
  - assert (Htext : "select tpcc" <> "") by discriminate.
    destruct (text_filter ToLower Fields LOWER Regexp.REGEXP allColumnsService
                (emptyDB ["digest"]) ["digest"] "digest" 0 0 [] [] "select tpcc"
                ["digest"] (sampleRow 0 0 "tpcc.orders" "SELECT * FROM orders")
                Htext eq_refl eq_refl) as [query [_ [_ [_ [_ [_ H]]]]]].
    apply H. intros v [<-|[<-|[]]].
    + left. reflexivity.
    + right. right. right. left. reflexivity.
Defined.

(** C6.  For a non-empty list of schemas, with the columns resolved and
    the projection built, [queryStatements] sends one query and returns
    the store's answer to it.  That query has, right after the window
    condition, one condition on the table names and no other; its
    pattern is the patterns of the schemas joined by bars, and reads as
    one alternative per schema: a word boundary, the bytes of the name
    taken literally whatever they are, and a dot.  So it holds on a row
    exactly when the table names hold one of the schemas followed by a
    dot, starting at a word boundary; "tpcc" finds "tpcc.orders" and not
    "tpccx.orders". *)
Theorem schema_filter :
  (forall (toLower : string -> string) (fields : string -> list string)
          (s : Service) (db : DB) (columns : list string) (selectStmt : string)
          (beginTime endTime : Z) (schemas stmtTypes : list string)
          (text : string) (reqFields : list string),
      schemas <> [] ->
      onColumns db (history db) statementsTable = (columns, None) ->
      genSelectStmt s columns reqFields = (selectStmt, None) ->
      let run := AnyText.queryStatements toLower fields s beginTime endTime
                   schemas stmtTypes text reqFields db in
      exists query,
        issued db (fst run) = [CallColumns statementsTable; CallFind query] /\
        snd run = Returned (onFind db (history db ++ [CallColumns statementsTable])
                              query) /\
        (exists rest,
            qWhere query
            = windowClause beginTime endTime :: schemaClause schemas :: rest /\
            Forall (fun c => fragment c <> "table_names REGEXP ?") rest) /\
        bound (schemaClause schemas) = [AStr (Join (map schemaPattern schemas) "|")] /\
        Regexp.parse (Join (map schemaPattern schemas) "|")
          = Some (map schemaAtoms schemas) /\
        (forall r : Row,
            clauseHolds Regexp.REGEXP r (schemaClause schemas) = true <->
            exists schema, In schema schemas /\
                           referencesSchema schema (table_names r))) /\
  clauseHolds Regexp.REGEXP (sampleRow 0 0 "tpccx.orders" "") (schemaClause ["tpcc"]) = false /\
  clauseHolds Regexp.REGEXP (sampleRow 0 0 "tpcc.orders" "") (schemaClause ["tpcc"]) = true.
Proof.
  split; [|split; reflexivity].
  intros toLower fields s db columns selectStmt beginTime endTime schemas
         stmtTypes text reqFields Hne Hcols Hsel run.
  destruct (queryStatements_runs toLower fields s db columns selectStmt
              beginTime endTime schemas stmtTypes text reqFields Hcols Hsel)
    as [Hissued Hresult].
  eexists. split; [exact Hissued|]. split; [exact Hresult|].
  split; [|split; [|split]].
  - rewrite AnyText_statementsQuery_eq. cbn [qWhere].
    destruct schemas as [|s0 ss]; [contradiction Hne; reflexivity|].
    eexists. split; [reflexivity|].
    apply Forall_app. split.
    + destruct stmtTypes; constructor; [discriminate | constructor].
    + destruct text as [|c text]; [constructor|].
      apply Forall_forall. intros cl Hc.
      apply in_map_iff in Hc. destruct Hc as [v [<- _]]. discriminate.
  - reflexivity.
  - apply parse_schema_patterns. exact Hne.
  - intros r. rewrite clauseHolds_schema.
    apply REGEXP_schema_patterns. exact Hne.
Qed.

Lemma schema_filter_witness :
  exists query,
    issued (emptyDB ["digest"])
      (fst (queryStatements allColumnsService 0 10 ["tp.cc"; "test"] [] ""
              ["digest"] (emptyDB ["digest"])))
    = [CallColumns statementsTable; CallFind query] /\
    (exists rest,
        qWhere query = windowClause 0 10 :: schemaClause ["tp.cc"; "test"] :: rest) /\
    Regexp.parse (Join (map schemaPattern ["tp.cc"; "test"]) "|")
      = Some [schemaAtoms "tp.cc"; schemaAtoms "test"].
Proof.
  destruct schema_filter as [H _].
  assert (Hne : ["tp.cc"; "test"] <> []) by discriminate.
  destruct (H ToLower Fields allColumnsService (emptyDB ["digest"]) ["digest"]
              "digest" 0 10 ["tp.cc"; "test"] [] "" ["digest"] Hne eq_refl eq_refl)
    as [query [Hissued [_ [[rest [Hwhere _]] [_ [Hparse _]]]]]].
  exists query. split; [exact Hissued|].
  split; [exists rest; exact Hwhere | exact Hparse].
Defined.

(** ** Validation of the requested fields *)

Lemma genSelectStmtSpec_rejects (columns fields : list string) :
  (exists f, In f fields /\ ~ In f columns) ->
  genSelectStmtSpec columns fields = ("", Some UnknownFieldError).
Proof.
  intros [f [Hin Hnot]]. unfold genSelectStmtSpec.
  destruct (forallb _ fields) eqn:E; [|reflexivity].
  rewrite forallb_forall in E. specialize (E f Hin).
  apply member_iff in E. contradiction.
Qed.

(** C2.  After the resolver has returned the column set, a request with
    a name outside it makes [queryStatements] fail with
    [UnknownFieldError], and so [queryPlans] for its eleven fixed fields;
    [queryPlanDetail] fails the same way when the projection step rejects
    its request.  In each case the call of the resolver is the only call
    the store has seen: no condition was built and no query was run. *)
Theorem unknown_field_rejected :
  forall (db : DB) (columns : list string),
    onColumns db (history db) statementsTable = (columns, None) ->
    (forall (beginTime endTime : Z) (schemas stmtTypes : list string)
            (text : string) (reqFields : list string),
        (exists f, In f reqFields /\ ~ In f columns) ->
        let run := queryStatements specService beginTime endTime schemas stmtTypes
                     text reqFields db in
        snd run = Returned ([], Some UnknownFieldError) /\
        issued db (fst run) = [CallColumns statementsTable]) /\
    (forall (beginTime endTime : Z) (schemaName digest : string),
        (exists f, In f planFields /\ ~ In f columns) ->
        let run := queryPlans specService beginTime endTime schemaName digest db in
        snd run = Returned ([], Some UnknownFieldError) /\
        issued db (fst run) = [CallColumns statementsTable]) /\
    (forall (s : Service) (beginTime endTime : Z) (schemaName digest : string)
            (plans : list string),
        snd (genSelectStmt s columns ["*"]) = Some UnknownFieldError ->
        let run := queryPlanDetail s beginTime endTime schemaName digest plans db in
        snd run = Returned (zeroModel, Some UnknownFieldError) /\
        issued db (fst run) = [CallColumns statementsTable]).
Proof.
  intros db columns Hcols. split; [|split].
  - intros beginTime endTime schemas stmtTypes text reqFields Hbad run.
    subst run. unfold queryStatements, bind, GetTableColumnNames.
    rewrite Hcols. cbn [genSelectStmt specService].
    rewrite (genSelectStmtSpec_rejects _ _ Hbad).
    split; [reflexivity | apply issued_app; reflexivity].
  - intros beginTime endTime schemaName digest Hbad run.
    subst run. unfold queryPlans, bind, GetTableColumnNames.
    rewrite Hcols. cbn [genSelectStmt specService].
    rewrite (genSelectStmtSpec_rejects _ _ Hbad).
    split; [reflexivity | apply issued_app; reflexivity].
  - intros s beginTime endTime schemaName digest plans Hrej run.
    subst run. unfold queryPlanDetail, bind, GetTableColumnNames.
    rewrite Hcols.
    destruct (genSelectStmt s columns ["*"]) as [sel err].
    cbn [snd] in Hrej. subst err.
    split; [reflexivity | apply issued_app; reflexivity].
Qed.

Lemma unknown_field_rejected_witness :
  snd (queryStatements specService 0 10 [] [] "" ["digest"; "bogus"]
         (emptyDB ["digest"; "sum_latency"]))
    = Returned ([], Some UnknownFieldError) /\
  issued (emptyDB ["digest"; "sum_latency"])
    (fst (queryPlans specService 0 10 "test" "d1" (emptyDB ["digest"; "sum_latency"])))
    = [CallColumns statementsTable].
Proof.
  destruct (unknown_field_rejected (emptyDB ["digest"; "sum_latency"])
              ["digest"; "sum_latency"] eq_refl) as [Hs [Hp _]].
  split.
  - apply (Hs 0 10 [] [] "" ["digest"; "bogus"]).
    exists "bogus". split; [right; left; reflexivity|].
    intros [H|[H|[]]]; discriminate H.
  - apply (Hp 0 10 "test" "d1").
    exists "plan_digest". split; [left; reflexivity|].
    intros [H|[H|[]]]; discriminate H.
Defined.

(** ** Plan detail *)




(** ** Grouping and ordering *)

Lemma keyEqb_eq (a b : list string) : keyEqb a b = true <-> a = b.
Proof.
  unfold keyEqb. destruct (list_eq_dec string_dec a b); split;
    intros H; (assumption || reflexivity || discriminate || contradiction).
Qed.

Lemma keyEqb_neq (a b : list string) : keyEqb a b = false <-> a <> b.
Proof.
  unfold keyEqb. destruct (list_eq_dec string_dec a b); split;
    intros H; (assumption || reflexivity || discriminate || contradiction).
Qed.

Lemma groupOf_addToGroup (k k' : list string) (r : Row)
    (groups : list (list string * list Row)) :
  groupOf k (addToGroup k' r groups) =
  if keyEqb k k' then (groupOf k groups ++ [r])%list else groupOf k groups.
Proof.
  induction groups as [|[k0 rs] rest IH].
  - cbn. destruct (keyEqb k k'); reflexivity.
  - cbn [addToGroup]. destruct (keyEqb k' k0) eqn:E0.
    + apply keyEqb_eq in E0. subst k0. cbn [groupOf].
      destruct (keyEqb k k'); reflexivity.
    + cbn [groupOf]. rewrite IH.
      destruct (keyEqb k k0) eqn:E1; [|reflexivity].
      apply keyEqb_eq in E1. subst k0.
      apply keyEqb_neq in E0.
      assert (E2 : keyEqb k k' = false) by (apply keyEqb_neq; congruence).
      rewrite E2. reflexivity.
Qed.

Lemma keys_addToGroup (k k' : list string) (r : Row)
    (groups : list (list string * list Row)) :
  In k (map fst (addToGroup k' r groups)) <-> k = k' \/ In k (map fst groups).
Proof.
  induction groups as [|[k0 rs] rest IH].
  - cbn. intuition congruence.
  - cbn [addToGroup]. destruct (keyEqb k' k0) eqn:E0.
    + apply keyEqb_eq in E0. subst k0. cbn. intuition congruence.
    + cbn [map fst In]. rewrite IH. cbn. tauto.
Qed.

Lemma NoDup_addToGroup (k' : list string) (r : Row)
    (groups : list (list string * list Row)) :
  NoDup (map fst groups) -> NoDup (map fst (addToGroup k' r groups)).
Proof.
  induction groups as [|[k0 rs] rest IH]; intros Hnd.
  - cbn. constructor; [intros [] | constructor].
  - cbn [addToGroup]. destruct (keyEqb k' k0) eqn:E0; [exact Hnd|].
    cbn [map fst] in *. inversion Hnd as [|? ? Hnot Hrest]; subst.
    constructor; [|apply IH; exact Hrest].
    rewrite keys_addToGroup. apply keyEqb_neq in E0.
    intros [H|H]; [congruence | contradiction].
Qed.

Lemma In_groupOf (k : list string) (rs : list Row)
    (groups : list (list string * list Row)) :
  NoDup (map fst groups) -> In (k, rs) groups -> groupOf k groups = rs.
Proof.
  induction groups as [|[k0 rs0] rest IH]; intros Hnd Hin; [contradiction|].
  cbn [map fst] in Hnd. inversion Hnd as [|? ? Hnot Hrest]; subst.
  cbn [groupOf]. destruct Hin as [Heq|Hin].
  - injection Heq as -> ->.
    assert (E : keyEqb k k = true) by (apply keyEqb_eq; reflexivity).
    rewrite E. reflexivity.
  - destruct (keyEqb k k0) eqn:E.
    + apply keyEqb_eq in E. subst k0. contradiction Hnot.
      apply (in_map fst) in Hin. exact Hin.
    + apply IH; assumption.
Qed.

Section Grouping.

Variable key : Row -> list string.

Lemma groupOf_fold (k : list string) (rows : list Row)
    (groups : list (list string * list Row)) :
  groupOf k (fold_left (fun gs r => addToGroup (key r) r gs) rows groups) =
  (groupOf k groups ++ filter (fun r => keyEqb k (key r)) rows)%list.
Proof.
  revert groups. induction rows as [|r rows IH]; intros groups.
  - cbn. rewrite app_nil_r. reflexivity.
  - cbn [fold_left filter]. rewrite IH, groupOf_addToGroup.
    destruct (keyEqb k (key r)); [rewrite <- app_assoc|]; reflexivity.
Qed.

Lemma NoDup_fold (rows : list Row) (groups : list (list string * list Row)) :
  NoDup (map fst groups) -> NoDup (map fst (fold_left (fun gs r => addToGroup (key r) r gs) rows groups)).
Proof.
  revert groups. induction rows as [|r rows IH]; intros groups Hnd; [exact Hnd|].
  cbn [fold_left]. apply IH. apply NoDup_addToGroup. exact Hnd.
Qed.

Lemma keys_fold (k : list string) (rows : list Row)
    (groups : list (list string * list Row)) :
  In k (map fst (fold_left (fun gs r => addToGroup (key r) r gs) rows groups)) <->
  In k (map fst groups) \/ exists r, In r rows /\ key r = k.
Proof.
  revert groups. induction rows as [|r rows IH]; intros groups.
  - cbn. split; [tauto | intros [H|[r [[] _]]]; exact H].
  - cbn [fold_left]. rewrite IH, keys_addToGroup.
    split.
    + intros [[H|H]|[r' [Hin Hk]]].
      * right. exists r. split; [left; reflexivity | congruence].
      * left. exact H.
      * right. exists r'. split; [right; exact Hin | exact Hk].
    + intros [H|[r' [[->|Hin] Hk]]].
      * left. right. exact H.
      * left. left. congruence.
      * right. exists r'. split; assumption.
Qed.

(** The groups have distinct keys; a group holds all the rows of its
    key, in their order, and at least one; every row has its group. *)
Lemma groupRows_spec (rows : list Row) :
  NoDup (map fst (groupRows key rows)) /\
  (forall k rs, In (k, rs) (groupRows key rows) ->
     rs <> [] /\ rs = filter (fun r => keyEqb k (key r)) rows) /\
  (forall r, In r rows -> In (key r) (map fst (groupRows key rows))).
Proof.
  assert (Hnd : NoDup (map fst (groupRows key rows)))
    by (apply NoDup_fold; constructor).
  split; [exact Hnd|]. split.
  - intros k rs Hin.
    assert (Hrs : rs = filter (fun r => keyEqb k (key r)) rows).
    { rewrite <- (In_groupOf k rs _ Hnd Hin).
      unfold groupRows. apply groupOf_fold. }
    split; [|exact Hrs].
    apply (in_map fst) in Hin. cbn [fst] in Hin.
    apply keys_fold in Hin. destruct Hin as [[]|[r [Hr Hk]]].
    intros Hempty. rewrite Hempty in Hrs.
    assert (Hf : In r (filter (fun r => keyEqb k (key r)) rows)).
    { apply filter_In. split; [exact Hr|]. apply keyEqb_eq. congruence. }
    rewrite <- Hrs in Hf. exact Hf.
  - intros r Hr. apply keys_fold. right. exists r. split; [exact Hr | reflexivity].
Qed.

End Grouping.

Lemma insertDesc_perm (g : list string * list Row)
    (groups : list (list string * list Row)) :
  Permutation (g :: groups) (insertDesc g groups).
Proof.
  induction groups as [|h rest IH]; [apply Permutation_refl|].
  cbn [insertDesc]. destruct (sumLatency (snd h) <? sumLatency (snd g)).
  - apply Permutation_refl.
  - apply perm_trans with (h :: g :: rest); [apply perm_swap|].
    apply perm_skip. exact IH.
Qed.

Lemma insertDesc_sorted (g : list string * list Row)
    (groups : list (list string * list Row)) :
  StronglySorted descending groups -> StronglySorted descending (insertDesc g groups).
Proof.
  induction groups as [|h rest IH]; intros Hs.
  - cbn. constructor; constructor.
  - cbn [insertDesc]. inversion Hs as [|? ? Hrest Hall]; subst.
    destruct (Z.ltb_spec (sumLatency (snd h)) (sumLatency (snd g))) as [Hlt|Hge].
    + constructor; [exact Hs|].
      constructor; [unfold descending; lia|].
      eapply Forall_impl; [|exact Hall].
      intros x Hx. unfold descending in *. lia.
    + constructor; [apply IH; exact Hrest|].
      eapply Permutation_Forall; [apply insertDesc_perm|].
      constructor; [unfold descending; lia | exact Hall].
Qed.

Lemma sortDesc_perm (groups : list (list string * list Row)) :
  Permutation groups (fold_right insertDesc [] groups).
Proof.
  induction groups as [|g rest IH]; [constructor|].
  cbn [fold_right]. eapply perm_trans; [|apply insertDesc_perm].
  apply perm_skip. exact IH.
Qed.

Lemma sortDesc_sorted (groups : list (list string * list Row)) :
  StronglySorted descending (fold_right insertDesc [] groups).
Proof.
  induction groups as [|g rest IH]; [constructor|].
  cbn [fold_right]. apply insertDesc_sorted. exact IH.
Qed.

(** C9.  The statement query always groups by the schema name and the
    digest and orders by the total latency, descending.  On a store that
    holds [rows], [queryStatements] returns one result per group of the
    selected rows: the groups have distinct pairs of schema name and
    digest, each group holds all the selected rows of its pair, whatever
    their plans, and at least one, every selected row is in a group, and
    no group has a smaller total latency than a group after it. *)
Theorem statements_grouped_and_ordered :
  forall (regexpLike : string -> string -> bool)
         (project : Query -> list Row -> Model)
         (s : Service) (columns : list string) (rows : list Row)
         (beginTime endTime : Z) (schemas stmtTypes : list string)
         (text : string) (reqFields : list string) (selectStmt : string),
    genSelectStmt s columns reqFields = (selectStmt, None) ->
    let query := statementsQuery selectStmt beginTime endTime schemas stmtTypes text in
    let groups := evalQuery regexpLike query rows in
    qGroup query = Some "schema_name, digest" /\
    qOrder query = Some "agg_sum_latency DESC" /\
    snd (queryStatements s beginTime endTime schemas stmtTypes text reqFields
           (tableDB regexpLike project columns rows))
      = Returned (map (fun g => project query (snd g)) groups, None) /\
    NoDup (map fst groups) /\
    (forall k rs, In (k, rs) groups ->
        rs <> [] /\
        rs = filter (fun r => keyEqb k [schema_name r; digest r])
               (selected regexpLike query rows)) /\
    (forall r, In r (selected regexpLike query rows) ->
        In [schema_name r; digest r] (map fst groups)) /\
    StronglySorted descending groups.
Proof.
  intros regexpLike project s columns rows beginTime endTime schemas stmtTypes
         text reqFields selectStmt Hsel query groups.
  assert (Hg : qGroup query = Some "schema_name, digest")
    by (subst query; rewrite statementsQuery_eq; reflexivity).
  assert (Ho : qOrder query = Some "agg_sum_latency DESC")
    by (subst query; rewrite statementsQuery_eq; reflexivity).
  assert (Hgroups :
            groups = fold_right insertDesc []
                       (groupRows (fun r => [schema_name r; digest r])
                          (selected regexpLike query rows))).
  { subst groups. unfold evalQuery. rewrite Hg, Ho. reflexivity. }
  destruct (groupRows_spec (fun r => [schema_name r; digest r])
              (selected regexpLike query rows)) as [Hnd [Hall Hevery]].
  pose proof (sortDesc_perm
                (groupRows (fun r => [schema_name r; digest r])
                   (selected regexpLike query rows))) as Hperm.
  rewrite <- Hgroups in Hperm.
  split; [exact Hg|]. split; [exact Ho|]. split; [|split; [|split; [|split]]].
  - unfold queryStatements, bind, GetTableColumnNames, Find.
    cbn [tableDB onColumns history]. rewrite Hsel. reflexivity.
  - eapply Permutation_NoDup; [|exact Hnd].
    apply Permutation_map. exact Hperm.
  - intros k rs Hin. apply Hall.
    eapply Permutation_in; [apply Permutation_sym; exact Hperm | exact Hin].
  - intros r Hr.
    eapply Permutation_in; [apply Permutation_map; exact Hperm|].
    apply Hevery. exact Hr.
  - rewrite Hgroups. apply sortDesc_sorted.
Qed.

(** Two statements, the second run under two plans: one result each, the
    costlier first, the latencies of the two plans added up. *)
Lemma statements_grouped_and_ordered_witness :
  snd (queryStatements allColumnsService 0 1000 [] [] "" ["digest"]
         (tableDB Regexp.REGEXP sampleProject ["digest"; "sum_latency"]
            [planRow "d1" "p1" 30; planRow "d2" "p1" 20; planRow "d2" "p2" 25]))
    = Returned ([[("digest", SStr "d2"); ("agg_sum_latency", SInt 45)];
                 [("digest", SStr "d1"); ("agg_sum_latency", SInt 30)]], None).
Proof.
  exact (proj1 (proj2 (proj2
    (statements_grouped_and_ordered Regexp.REGEXP sampleProject allColumnsService
       ["digest"; "sum_latency"]
       [planRow "d1" "p1" 30; planRow "d2" "p1" 20; planRow "d2" "p2" 25]
       0 1000 [] [] "" ["digest"] "digest, sum_latency" eq_refl)))).
Defined.

(** * Further properties *)

(** ** Reading the configuration *)

Lemma querySQLIntVariable_fst (name : string) (db : DB) :
  fst (querySQLIntVariable name db) = record db (variableRead name).
Proof. rewrite querySQLIntVariable_eq. reflexivity. Qed.

Lemma querySQLIntVariable_pair (name : string) (db : DB) :
  querySQLIntVariable name db =
  (record db (variableRead name), snd (querySQLIntVariable name db)).
Proof.
  rewrite <- querySQLIntVariable_fst. apply surjective_pairing.
Qed.

(** [queryStmtConfig] by the outcomes of its three reads. *)
Lemma queryStmtConfig_cases (db : DB) :
  let db1 := record db (variableRead stmtEnableVar) in
  let db2 := record db1 (variableRead stmtRefreshIntervalVar) in
  let db3 := record db2 (variableRead stmtHistorySizeVar) in
  queryStmtConfig db =
  match snd (querySQLIntVariable stmtEnableVar db) with
  | Panicked p => (db1, Panicked p)
  | Returned (_, Some e) => (db1, Returned (None, Some e))
  | Returned (enable, None) =>
      match snd (querySQLIntVariable stmtRefreshIntervalVar db1) with
      | Panicked p => (db2, Panicked p)
      | Returned (_, Some e) => (db2, Returned (None, Some e))
      | Returned (refreshInterval, None) =>
          match snd (querySQLIntVariable stmtHistorySizeVar db2) with
          | Panicked p => (db3, Panicked p)
          | Returned (_, Some e) => (db3, Returned (None, Some e))
          | Returned (historySize, None) =>
              (db3,
               Returned
                 (Some (mkConfig (negb (enable =? 0))
                          (if refreshInterval =? -1 then 1800 else refreshInterval)
                          (if historySize =? -1 then 24 else historySize)),
                  None))
          end
      end
  end.
Proof.
  intros db1 db2 db3. unfold queryStmtConfig, bind.
  rewrite (querySQLIntVariable_pair stmtEnableVar db). cbn [snd]. fold db1.
  destruct (snd (querySQLIntVariable stmtEnableVar db)) as [[enable [e|]]|p];
    [reflexivity| |reflexivity].
  rewrite (querySQLIntVariable_pair stmtRefreshIntervalVar db1). cbn [snd]. fold db2.
  destruct (snd (querySQLIntVariable stmtRefreshIntervalVar db1))
    as [[refreshInterval [e|]]|p]; [reflexivity| |reflexivity].
  rewrite (querySQLIntVariable_pair stmtHistorySizeVar db2). cbn [snd]. fold db3.
  destruct (snd (querySQLIntVariable stmtHistorySizeVar db2))
    as [[historySize [e|]]|p]; reflexivity.
Qed.

(** X1.  The first read that reports an error, from the store or from the
    parse of the value, ends [queryStmtConfig]: it returns no
    configuration and that error, and the variables after it are not
    read. *)
Theorem queryStmtConfig_first_failure :
  forall db : DB,
    let db1 := record db (variableRead stmtEnableVar) in
    let db2 := record db1 (variableRead stmtRefreshIntervalVar) in
    let db3 := record db2 (variableRead stmtHistorySizeVar) in
    (forall v e,
        snd (querySQLIntVariable stmtEnableVar db) = Returned (v, Some e) ->
        queryStmtConfig db = (db1, Returned (None, Some e))) /\
    (forall enable v e,
        snd (querySQLIntVariable stmtEnableVar db) = Returned (enable, None) ->
        snd (querySQLIntVariable stmtRefreshIntervalVar db1) = Returned (v, Some e) ->
        queryStmtConfig db = (db2, Returned (None, Some e))) /\
    (forall enable refreshInterval v e,
        snd (querySQLIntVariable stmtEnableVar db) = Returned (enable, None) ->
        snd (querySQLIntVariable stmtRefreshIntervalVar db1)
          = Returned (refreshInterval, None) ->
        snd (querySQLIntVariable stmtHistorySizeVar db2) = Returned (v, Some e) ->
        queryStmtConfig db = (db3, Returned (None, Some e))).
Proof.
  intros db db1 db2 db3.
  pose proof (queryStmtConfig_cases db) as H. cbn zeta in H.
  fold db1 db2 db3 in H.
  split; [|split].
  - intros v e H1. rewrite H, H1. reflexivity.
  - intros enable v e H1 H2. rewrite H, H1, H2. reflexivity.
  - intros enable refreshInterval v e H1 H2 H3. rewrite H, H1, H2, H3. reflexivity.
Qed.

Lemma queryStmtConfig_first_failure_witness :
  queryStmtConfig
    (variablesDB [(["1"], None); (["soon"], None); (["24"], None)])
  = (record
       (record (variablesDB [(["1"], None); (["soon"], None); (["24"], None)])
          (variableRead stmtEnableVar))
       (variableRead stmtRefreshIntervalVar),
     Returned (None, Some (NumError "Atoi" "soon" ErrSyntax))).
Proof.
  destruct (queryStmtConfig_first_failure
              (variablesDB [(["1"], None); (["soon"], None); (["24"], None)]))
    as [_ [H _]].
  apply (H 1 0); reflexivity.
Defined.

(** X2.  A read that panics makes [queryStmtConfig] panic the same way:
    when the store answers one of the three reads with no error and no
    row, after the reads before it succeeded, the index out of range
    reaches the caller of [queryStmtConfig]. *)
Theorem queryStmtConfig_panic_propagates :
  forall (db : DB) (p : panic),
    let db1 := record db (variableRead stmtEnableVar) in
    let db2 := record db1 (variableRead stmtRefreshIntervalVar) in
    (snd (querySQLIntVariable stmtEnableVar db) = Panicked p ->
     snd (queryStmtConfig db) = Panicked p) /\
    (forall enable,
        snd (querySQLIntVariable stmtEnableVar db) = Returned (enable, None) ->
        snd (querySQLIntVariable stmtRefreshIntervalVar db1) = Panicked p ->
        snd (queryStmtConfig db) = Panicked p) /\
    (forall enable refreshInterval,
        snd (querySQLIntVariable stmtEnableVar db) = Returned (enable, None) ->
        snd (querySQLIntVariable stmtRefreshIntervalVar db1)
          = Returned (refreshInterval, None) ->
        snd (querySQLIntVariable stmtHistorySizeVar db2) = Panicked p ->
        snd (queryStmtConfig db) = Panicked p).
Proof.
  intros db p db1 db2.
  pose proof (queryStmtConfig_cases db) as H. cbn zeta in H.
  fold db1 db2 in H.
  split; [|split].
  - intros H1. rewrite H, H1. reflexivity.
  - intros enable H1 H2. rewrite H, H1, H2. reflexivity.
  - intros enable refreshInterval H1 H2 H3. rewrite H, H1, H2, H3. reflexivity.
Qed.

Lemma queryStmtConfig_panic_propagates_witness :
  snd (queryStmtConfig (variablesDB [(["1"], None); (["1800"], None); ([], None)]))
  = Panicked (IndexOutOfRange 0 0).
Proof.
  destruct (queryStmtConfig_panic_propagates
              (variablesDB [(["1"], None); (["1800"], None); ([], None)])
              (IndexOutOfRange 0 0)) as [_ [_ H]].
  apply (H 1 1800); reflexivity.
Defined.

(** X3.  When [queryStmtConfig] returns, it returns a configuration or
    an error and never both or neither; and a configuration it returns
    never carries -1 as its refresh interval or its history size. *)
Theorem queryStmtConfig_result_shape :
  forall (db : DB) (config : option Config) (err : option error),
    snd (queryStmtConfig db) = Returned (config, err) ->
    (config = None <-> err <> None) /\
    (forall c, config = Some c ->
       RefreshInterval c <> -1 /\ HistorySize c <> -1).
Proof.
  intros db config err Hrun.
  rewrite queryStmtConfig_cases in Hrun. cbn zeta in Hrun.
  destruct (snd (querySQLIntVariable stmtEnableVar db)) as [[enable [e|]]|p];
    cbn [snd] in Hrun; [| |discriminate Hrun].
  { injection Hrun as <- <-. split; [split; [discriminate|reflexivity]|discriminate]. }
  destruct (snd (querySQLIntVariable stmtRefreshIntervalVar _))
    as [[refreshInterval [e|]]|p]; cbn [snd] in Hrun; [| |discriminate Hrun].
  { injection Hrun as <- <-. split; [split; [discriminate|reflexivity]|discriminate]. }
  destruct (snd (querySQLIntVariable stmtHistorySizeVar _))
    as [[historySize [e|]]|p]; cbn [snd] in Hrun; [| |discriminate Hrun].
  { injection Hrun as <- <-. split; [split; [discriminate|reflexivity]|discriminate]. }
  injection Hrun as <- <-. split.
  - split; [discriminate | intros H; contradiction H; reflexivity].
  - intros c Hc. injection Hc as <-. cbn [RefreshInterval HistorySize]. split.
    + destruct (Z.eqb_spec refreshInterval (-1)); [discriminate | assumption].
    + destruct (Z.eqb_spec historySize (-1)); [discriminate | assumption].
Qed.

Lemma queryStmtConfig_result_shape_witness :
  RefreshInterval (mkConfig false 1800 60) <> -1 /\
  HistorySize (mkConfig false 1800 60) <> -1.
Proof.
  destruct (queryStmtConfig_result_shape
              (variablesDB [(["0"], None); (["-1"], None); (["60"], None)])
              (Some (mkConfig false 1800 60)) None eq_refl) as [_ H].
  apply H. reflexivity.
Defined.

(** X4.  [queryStmtConfig] only reads: the calls it issues are the read
    of the enabled flag, then possibly the read of the refresh interval,
    then possibly the read of the history size, and nothing else,
    whatever the store answers. *)
Theorem queryStmtConfig_reads_only :
  forall db : DB,
    exists n : nat,
      (1 <= n <= 3)%nat /\
      issued db (fst (queryStmtConfig db)) = firstn n configReads.
Proof.
  intros db. rewrite queryStmtConfig_cases. cbn zeta.
  destruct (snd (querySQLIntVariable stmtEnableVar db)) as [[enable [e|]]|p];
    [exists 1%nat | | exists 1%nat];
    try (split; [lia | apply issued_app; reflexivity]).
  destruct (snd (querySQLIntVariable stmtRefreshIntervalVar _))
    as [[refreshInterval [e|]]|p];
    [exists 2%nat | | exists 2%nat];
    try (split; [lia | apply issued_app; cbn [fst record history];
                       rewrite <- app_assoc; reflexivity]).
  exists 3%nat. split; [lia|]. apply issued_app.
  destruct (snd (querySQLIntVariable stmtHistorySizeVar _))
    as [[historySize [e|]]|p];
    cbn [fst record history]; rewrite <- !app_assoc; reflexivity.
Qed.

(** ** Writing the configuration *)

(** X5.  What [updateStmtConfig] returns, by the answers of the store to
    its writes.  With [Enable] unset it returns the answer to the write
    of the enabled flag.  With [Enable] set it returns no error exactly
    when the writes of the refresh interval and of the history size both
    succeeded, and an error of either of these two writes is the error
    returned. *)
Theorem updateStmtConfig_errors :
  forall (config : Config) (db : DB),
    let enableAnswer :=
      onExec db (history db) "SET GLOBAL tidb_enable_stmt_summary = ?"
        [ABool (Enable config)] in
    let refreshAnswer :=
      onExec db (history db ++ [enableWrite config])
        "SET GLOBAL tidb_stmt_summary_refresh_interval = ?"
        [AInt (RefreshInterval config)] in
    let historyAnswer :=
      onExec db (history db ++ [enableWrite config; refreshIntervalWrite config])
        "SET GLOBAL tidb_stmt_summary_history_size = ?"
        [AInt (HistorySize config)] in
    let result := snd (updateStmtConfig config db) in
    (Enable config = false -> result = Returned enableAnswer) /\
    (Enable config = true ->
       (result = Returned None <-> refreshAnswer = None /\ historyAnswer = None) /\
       (forall e, refreshAnswer = Some e -> result = Returned (Some e)) /\
       (forall e, refreshAnswer = None -> historyAnswer = Some e ->
                  result = Returned (Some e))).
Proof.
  intros config db enableAnswer refreshAnswer historyAnswer result.
  subst result. rewrite updateStmtConfig_eq. cbn zeta.
  cbn [record history]. rewrite <- app_assoc. cbn [app].
  fold enableAnswer refreshAnswer historyAnswer.
  split; intros HE; rewrite HE; [reflexivity|].
  destruct refreshAnswer as [e2|]; cbn [snd].
  - split; [|split].
    + split; [discriminate | intros [H _]; discriminate H].
    + intros e H. injection H as <-. reflexivity.
    + intros e H. discriminate H.
  - split; [|split].
    + split; [intros H; injection H as H; split; [reflexivity | exact H]
             | intros [_ H]; rewrite H; reflexivity].
    + intros e H. discriminate H.
    + intros e _ H. rewrite H. reflexivity.
Qed.

Lemma updateStmtConfig_errors_witness :
  snd (updateStmtConfig (mkConfig true 1800 24)
         (writeFailsAt 2 (StoreError "read only")))
  = Returned (Some (StoreError "read only")).
Proof.
  destruct (updateStmtConfig_errors (mkConfig true 1800 24)
              (writeFailsAt 2 (StoreError "read only"))) as [_ H].
  destruct (H eq_refl) as [_ [_ H3]].
  apply H3; reflexivity.
Defined.

(** ** The calls of the query functions *)

(** X6.  When the resolver of the table's columns fails, each of the
    three query functions returns its error with an empty result, for
    every projection step and every filter; the call of the resolver is
    the only call the store has seen. *)
Theorem resolver_failure_stops :
  forall (s : Service) (db : DB) (columns : list string) (e : error),
    onColumns db (history db) statementsTable = (columns, Some e) ->
    (forall (beginTime endTime : Z) (schemas stmtTypes : list string)
            (text : string) (reqFields : list string),
        queryStatements s beginTime endTime schemas stmtTypes text reqFields db
        = (record db (CallColumns statementsTable), Returned ([], Some e))) /\
    (forall (beginTime endTime : Z) (schemaName digestValue : string),
        queryPlans s beginTime endTime schemaName digestValue db
        = (record db (CallColumns statementsTable), Returned ([], Some e))) /\
    (forall (beginTime endTime : Z) (schemaName digestValue : string)
            (plans : list string),
        queryPlanDetail s beginTime endTime schemaName digestValue plans db
        = (record db (CallColumns statementsTable), Returned (zeroModel, Some e))).
Proof.
  intros s db columns e Hcols. split; [|split]; intros.
  - unfold queryStatements, bind, GetTableColumnNames. rewrite Hcols. reflexivity.
  - unfold queryPlans, bind, GetTableColumnNames. rewrite Hcols. reflexivity.
  - unfold queryPlanDetail, bind, GetTableColumnNames. rewrite Hcols. reflexivity.
Qed.

Lemma resolver_failure_stops_witness :
  snd (queryPlanDetail specService 0 10 "test" "d1" []
         (resolverFails (ResolverError "no such table")))
  = Returned (zeroModel, Some (ResolverError "no such table")).
Proof.
  destruct (resolver_failure_stops specService
              (resolverFails (ResolverError "no such table"))
              [] (ResolverError "no such table") eq_refl) as [_ [_ H]].
  rewrite H. reflexivity.
Defined.

(** X7.  The three query functions never write: whatever the store
    answers, each calls the resolver first and then sends at most one
    query, the one it has built from its arguments. *)
Theorem query_functions_read_only :
  forall (toLower : string -> string) (fields : string -> list string)
         (s : Service) (db : DB) (beginTime endTime : Z)
         (schemas stmtTypes : list string) (text : string)
         (reqFields : list string) (schemaName digestValue : string)
         (plans : list string),
    (let run := AnyText.queryStatements toLower fields s beginTime endTime
                  schemas stmtTypes text reqFields db in
     issued db (fst run) = [CallColumns statementsTable] \/
     exists selectStmt,
       issued db (fst run) =
       [CallColumns statementsTable;
        CallFind (AnyText.statementsQuery toLower fields selectStmt beginTime
                    endTime schemas stmtTypes text)]) /\
    (let run := queryPlans s beginTime endTime schemaName digestValue db in
     issued db (fst run) = [CallColumns statementsTable] \/
     exists selectStmt,
       issued db (fst run) =
       [CallColumns statementsTable;
        CallFind (plansQuery selectStmt beginTime endTime schemaName digestValue)]) /\
    (let run := queryPlanDetail s beginTime endTime schemaName digestValue plans db in
     issued db (fst run) = [CallColumns statementsTable] \/
     exists selectStmt,
       issued db (fst run) =
       [CallColumns statementsTable;
        CallScan (planDetailQuery selectStmt beginTime endTime schemaName
                    digestValue plans)]).
Proof.
  intros. split; [|split]; cbn zeta.
  - destruct (onColumns db (history db) statementsTable) as [columns [e|]] eqn:Hcols.
    + left. unfold AnyText.queryStatements, bind, GetTableColumnNames.
      rewrite Hcols. apply issued_app. reflexivity.
    + destruct (genSelectStmt s columns reqFields) as [selectStmt [e|]] eqn:Hsel.
      * left. unfold AnyText.queryStatements, bind, GetTableColumnNames.
        rewrite Hcols, Hsel. apply issued_app. reflexivity.
      * right. exists selectStmt.
        exact (proj1 (queryStatements_runs toLower fields s db columns selectStmt
                        beginTime endTime schemas stmtTypes text reqFields
                        Hcols Hsel)).
  - destruct (onColumns db (history db) statementsTable) as [columns [e|]] eqn:Hcols.
    + left. unfold queryPlans, bind, GetTableColumnNames.
      rewrite Hcols. apply issued_app. reflexivity.
    + destruct (genSelectStmt s columns planFields) as [selectStmt [e|]] eqn:Hsel.
      * left. unfold queryPlans, bind, GetTableColumnNames.
        rewrite Hcols, Hsel. apply issued_app. reflexivity.
      * right. exists selectStmt.
        exact (proj1 (queryPlans_runs s db columns selectStmt beginTime endTime
                        schemaName digestValue Hcols Hsel)).
  - destruct (onColumns db (history db) statementsTable) as [columns [e|]] eqn:Hcols.
    + left. unfold queryPlanDetail, bind, GetTableColumnNames.
      rewrite Hcols. apply issued_app. reflexivity.
    + destruct (genSelectStmt s columns ["*"]) as [selectStmt [e|]] eqn:Hsel.
      * left. unfold queryPlanDetail, bind, GetTableColumnNames.
        rewrite Hcols, Hsel. apply issued_app. reflexivity.
      * right. exists selectStmt.
        exact (proj1 (queryPlanDetail_runs s db columns selectStmt beginTime
                        endTime schemaName digestValue plans Hcols Hsel)).
Qed.

(** ** The rows the statement query selects *)

Lemma textClauses_hold_iff (regexpLike : string -> string -> bool)
    (r : Row) (terms : list string) :
  forallb (clauseHolds regexpLike r) (map textClause terms) = true <->
  forall v, In v terms -> termFound regexpLike r v = true.
Proof.
  rewrite forallb_forall. split.
  - intros H v Hv.
    change (termFound regexpLike r v) with (clauseHolds regexpLike r (textClause v)).
    apply H. apply in_map. exact Hv.
  - intros H c Hc. apply in_map_iff in Hc. destruct Hc as [v [<- Hv]].
    change (clauseHolds regexpLike r (textClause v)) with (termFound regexpLike r v).
    apply H. exact Hv.
Qed.

Lemma statementsQuery_rowMatches (regexpLike : string -> string -> bool)
    (selectStmt : string) (beginTime endTime : Z)
    (schemas stmtTypes : list string) (text : string) (r : Row) :
  rowMatches regexpLike
    (statementsQuery selectStmt beginTime endTime schemas stmtTypes text) r = true <->
  (beginTime <= summary_begin_time r /\ summary_end_time r <= endTime) /\
  (schemas <> [] ->
     regexpLike (table_names r) (Join (map schemaPattern schemas) "|") = true) /\
  (stmtTypes <> [] -> In (stmt_type r) stmtTypes) /\
  (forall v, In v (Fields (ToLower text)) -> termFound regexpLike r v = true).
Proof.
  unfold rowMatches. rewrite statementsQuery_eq. cbn [qWhere forallb].
  rewrite !forallb_app, !andb_true_iff.
  rewrite window_holds_iff, textClauses_hold_iff.
  destruct schemas as [|s0 ss], stmtTypes as [|t0 ts]; cbn [forallb];
    rewrite ?clauseHolds_schema, ?clauseHolds_stmtType, ?andb_true_r, ?member_iff.
  - split; [intros [Hw [_ [_ Ht]]] | intros [Hw [_ [_ Ht]]]];
      repeat split; tauto.
  - assert (Hne : t0 :: ts <> []) by discriminate. tauto.
  - assert (Hne : s0 :: ss <> []) by discriminate. tauto.
  - assert (Hne : s0 :: ss <> []) by discriminate.
    assert (Hne' : t0 :: ts <> []) by discriminate. tauto.
Qed.

(** X8.  The filters of the statement query combine by AND, and a filter
    that is not given selects nothing out: a row passes the query
    [queryStatements] sends exactly when its window is contained, the
    schema pattern finds its table names if [schemas] is not empty, its
    statement type is one of [stmtTypes] if that list is not empty, and,
    if the text is not empty, every term of the lower-cased text is found
    in one of the five lower-cased columns. *)
Theorem statements_row_selection :
  forall (toLower : string -> string) (fields : string -> list string)
         (lower : string -> string) (regexpLike : string -> string -> bool)
         (selectStmt : string) (beginTime endTime : Z)
         (schemas stmtTypes : list string) (text : string) (reqFields : list string),
    let query := AnyText.statementsQuery toLower fields selectStmt beginTime
                   endTime schemas stmtTypes text in
    (forall (s : Service) (db : DB) (columns : list string),
        onColumns db (history db) statementsTable = (columns, None) ->
        genSelectStmt s columns reqFields = (selectStmt, None) ->
        issued db
          (fst (AnyText.queryStatements toLower fields s beginTime endTime schemas
                  stmtTypes text reqFields db))
        = [CallColumns statementsTable; CallFind query]) /\
    (forall r : Row,
        AnyText.rowMatches lower regexpLike query r = true <->
        (beginTime <= summary_begin_time r /\ summary_end_time r <= endTime) /\
        (schemas <> [] ->
           regexpLike (table_names r) (Join (map schemaPattern schemas) "|") = true) /\
        (stmtTypes <> [] -> In (stmt_type r) stmtTypes) /\
        (text <> "" ->
         forall v, In v (fields (toLower text)) ->
           regexpLike (lower (digest_text r)) v = true \/
           regexpLike (lower (digest r)) v = true \/
           regexpLike (lower (schema_name r)) v = true \/
           regexpLike (lower (table_names r)) v = true \/
           regexpLike (lower (plan r)) v = true)).
Proof.
  intros toLower fields lower regexpLike selectStmt beginTime endTime schemas
         stmtTypes text reqFields query.
  split.
  - intros s db columns Hcols Hsel.
    exact (proj1 (queryStatements_runs toLower fields s db columns selectStmt
                    beginTime endTime schemas stmtTypes text reqFields Hcols Hsel)).
  - intros r. subst query. unfold AnyText.rowMatches.
    rewrite AnyText_statementsQuery_eq. cbn [qWhere forallb].
    rewrite !forallb_app, !andb_true_iff, AnyText_window_holds_iff.
    assert (Htext :
              forallb (AnyText.clauseHolds lower regexpLike r)
                match text with
                | EmptyString => []
                | _ => map textClause (fields (toLower text))
                end = true <->
              (text <> "" ->
               forall v, In v (fields (toLower text)) ->
                 regexpLike (lower (digest_text r)) v = true \/
                 regexpLike (lower (digest r)) v = true \/
                 regexpLike (lower (schema_name r)) v = true \/
                 regexpLike (lower (table_names r)) v = true \/
                 regexpLike (lower (plan r)) v = true)).
    { destruct text as [|c text].
      - cbn [forallb]. split; [intros _ H; contradiction H; reflexivity | reflexivity].
      - rewrite AnyText_textClauses_hold_iff. split.
        + intros H _. exact H.
        + intros H. apply H. discriminate. }
    rewrite Htext.
    destruct schemas as [|s0 ss], stmtTypes as [|t0 ts]; cbn [forallb];
      rewrite ?AnyText_clauseHolds_schema, ?AnyText_clauseHolds_stmtType,
              ?andb_true_r, ?member_iff.
    + tauto.
    + assert (Hne : t0 :: ts <> []) by discriminate. tauto.
    + assert (Hne : s0 :: ss <> []) by discriminate. tauto.
    + assert (Hne : s0 :: ss <> []) by discriminate.
      assert (Hne' : t0 :: ts <> []) by discriminate. tauto.
Qed.

Lemma statements_row_selection_witness :
  issued (emptyDB ["digest"])
    (fst (queryStatements allColumnsService 0 300 ["tpcc"] ["Select"] "select"
            ["digest"] (emptyDB ["digest"])))
  = [CallColumns statementsTable;
     CallFind (statementsQuery "digest" 0 300 ["tpcc"] ["Select"] "select")].
Proof.
  destruct (statements_row_selection ToLower Fields LOWER Regexp.REGEXP "digest"
              0 300 ["tpcc"] ["Select"] "select" ["digest"]) as [H _].
  exact (H allColumnsService (emptyDB ["digest"]) ["digest"] eq_refl eq_refl).
Defined.

(** X9.  The schema filter and the type filter depend on the names
    given, not on their order or repetition: two calls whose lists hold
    the same schemas and the same statement types select the same rows. *)
Theorem statement_filters_as_sets :
  forall (selectStmt : string) (beginTime endTime : Z)
         (schemas1 schemas2 stmtTypes1 stmtTypes2 : list string)
         (text : string) (r : Row),
    (forall x, In x schemas1 <-> In x schemas2) ->
    (forall x, In x stmtTypes1 <-> In x stmtTypes2) ->
    rowMatches Regexp.REGEXP
      (statementsQuery selectStmt beginTime endTime schemas1 stmtTypes1 text) r
    = rowMatches Regexp.REGEXP
        (statementsQuery selectStmt beginTime endTime schemas2 stmtTypes2 text) r.
Proof.
  intros selectStmt beginTime endTime schemas1 schemas2 stmtTypes1 stmtTypes2
         text r Hs Ht.
  assert (Hside : forall a1 a2 t1 t2,
             (forall x, In x a1 <-> In x a2) ->
             (forall x, In x t1 <-> In x t2) ->
             rowMatches Regexp.REGEXP
               (statementsQuery selectStmt beginTime endTime a1 t1 text) r = true ->
             rowMatches Regexp.REGEXP
               (statementsQuery selectStmt beginTime endTime a2 t2 text) r = true).
  { intros a1 a2 t1 t2 Ha Hty H.
    apply statementsQuery_rowMatches in H.
    destruct H as [Hw [Hsc [Hst Htx]]].
    apply statementsQuery_rowMatches.
    split; [exact Hw|]. split; [|split; [|exact Htx]].
    - intros Hne2.
      assert (Hne1 : a1 <> []).
      { destruct a2 as [|x xs]; [contradiction Hne2; reflexivity|].
        intros ->. apply (Ha x). left. reflexivity. }
      apply (REGEXP_schema_patterns a2 (table_names r) Hne2).
      apply (REGEXP_schema_patterns a1 (table_names r) Hne1) in Hsc; [|exact Hne1].
      destruct Hsc as [schema [Hin Href]].
      exists schema. split; [apply Ha; exact Hin | exact Href].
    - intros Hne2.
      assert (Hne1 : t1 <> []).
      { destruct t2 as [|x xs]; [contradiction Hne2; reflexivity|].
        intros ->. apply (Hty x). left. reflexivity. }
      apply Hty. apply Hst. exact Hne1. }
  apply eq_true_iff_eq. split.
  - apply Hside; assumption.
  - apply Hside; intros x; symmetry; auto.
Qed.

Lemma statement_filters_as_sets_witness :
  rowMatches Regexp.REGEXP
    (statementsQuery "" 0 300 ["tpcc"; "test"] ["Select"] "")
    (sampleRow 100 200 "tpcc.orders" "select * from orders")
  = rowMatches Regexp.REGEXP
      (statementsQuery "" 0 300 ["test"; "tpcc"; "test"] ["Select"; "Select"] "")
      (sampleRow 100 200 "tpcc.orders" "select * from orders").
Proof.
  apply statement_filters_as_sets; intros x; cbn [In]; tauto.
Defined.

(** ** The search text *)

(** X10.  The statement query depends on the search text only through
    its lower-cased terms: two texts that differ in the case of their
    letters or in their white space build the same query. *)
Theorem same_terms_same_query :
  forall (selectStmt : string) (beginTime endTime : Z)
         (schemas stmtTypes : list string) (text1 text2 : string),
    Fields (ToLower text1) = Fields (ToLower text2) ->
    statementsQuery selectStmt beginTime endTime schemas stmtTypes text1
    = statementsQuery selectStmt beginTime endTime schemas stmtTypes text2.
Proof.
  intros selectStmt beginTime endTime schemas stmtTypes text1 text2 H.
  rewrite !statementsQuery_eq, H. reflexivity.
Qed.

Lemma same_terms_same_query_witness :
  statementsQuery "digest" 0 10 [] [] "  Select   TPCC "
  = statementsQuery "digest" 0 10 [] [] "select tpcc".
Proof. apply same_terms_same_query. reflexivity. Defined.

Lemma isSpace_toLowerByte (c : ascii) : isSpace (toLowerByte c) = isSpace c.
Proof. destruct c as [[] [] [] [] [] [] [] []]; reflexivity. Qed.

Lemma isUpper_toLowerByte (c : ascii) : isUpper (toLowerByte c) = false.
Proof. destruct c as [[] [] [] [] [] [] [] []]; reflexivity. Qed.

Lemma Fields_allSpace (text : string) :
  allSpace text = true -> Fields (ToLower text) = [].
Proof.
  unfold Fields. induction text as [|c rest IH]; intros H; [reflexivity|].
  cbn [allSpace] in H. apply andb_true_iff in H. destruct H as [Hc Hrest].
  cbn [ToLower fieldsFrom]. rewrite isSpace_toLowerByte, Hc.
  cbn [flush app]. apply IH. exact Hrest.
Qed.

(** X11.  A search text of white space only is no filter: the query is
    the one built for the empty text and carries no text condition. *)
Theorem blank_text_no_condition :
  forall (selectStmt : string) (beginTime endTime : Z)
         (schemas stmtTypes : list string) (text : string),
    allSpace text = true ->
    statementsQuery selectStmt beginTime endTime schemas stmtTypes text
    = statementsQuery selectStmt beginTime endTime schemas stmtTypes "" /\
    Forall (fun c => fragment c <> textFragment)
      (qWhere (statementsQuery selectStmt beginTime endTime schemas stmtTypes text)).
Proof.
  intros selectStmt beginTime endTime schemas stmtTypes text H.
  rewrite !statementsQuery_eq, (Fields_allSpace text H). split; [reflexivity|].
  cbn [qWhere map]. rewrite app_nil_r.
  constructor; [discriminate|]. apply Forall_app. split.
  - destruct schemas; constructor; [discriminate | constructor].
  - destruct stmtTypes; constructor; [discriminate | constructor].
Qed.

Lemma blank_text_no_condition_witness :
  statementsQuery "digest" 0 10 ["tpcc"] [] "   "
  = statementsQuery "digest" 0 10 ["tpcc"] [] "".
Proof. apply blank_text_no_condition. reflexivity. Defined.

Lemma plainBytes_app (a b : string) :
  plainBytes (a ++ b) = plainBytes a && plainBytes b.
Proof.
  induction a as [|c a IH]; [reflexivity|].
  cbn [String.append plainBytes]. rewrite IH, andb_assoc. reflexivity.
Qed.

Lemma fieldsFrom_plain (s cur : string) :
  plainBytes cur = true ->
  (forall c, In c (list_ascii_of_string s) -> isUpper c = false) ->
  Forall (fun v => v <> "" /\ plainBytes v = true) (fieldsFrom cur s).
Proof.
  revert cur. induction s as [|c rest IH]; intros cur Hcur Hlow.
  - cbn [fieldsFrom]. destruct cur as [|d cur']; cbn [flush];
      [constructor | constructor; [split; [discriminate | exact Hcur] | constructor]].
  - cbn [fieldsFrom]. destruct (isSpace c) eqn:Hc.
    + apply Forall_app. split.
      * destruct cur as [|d cur']; cbn [flush];
          [constructor | constructor; [split; [discriminate | exact Hcur] | constructor]].
      * apply IH; [reflexivity|]. intros x Hx. apply Hlow. right. exact Hx.
    + apply IH.
      * rewrite plainBytes_app, Hcur. cbn [plainBytes].
        rewrite Hc, (Hlow c (or_introl eq_refl)). reflexivity.
      * intros x Hx. apply Hlow. right. exact Hx.
Qed.

Lemma ToLower_no_upper (s : string) (c : ascii) :
  In c (list_ascii_of_string (ToLower s)) -> isUpper c = false.
Proof.
  induction s as [|d rest IH]; [intros []|].
  cbn [ToLower list_ascii_of_string In]. intros [<-|H].
  - apply isUpper_toLowerByte.
  - apply IH. exact H.
Qed.

(** X12.  Every text condition of the statement query binds a term that
    is not empty and holds no white space and no upper-case letter: an
    empty pattern, which would find every row, is never sent. *)
Theorem text_terms_wellformed :
  forall (selectStmt : string) (beginTime endTime : Z)
         (schemas stmtTypes : list string) (text : string) (c : Clause),
    In c (qWhere (statementsQuery selectStmt beginTime endTime schemas stmtTypes text)) ->
    fragment c = textFragment ->
    exists v, c = textClause v /\ v <> "" /\ plainBytes v = true.
Proof.
  intros selectStmt beginTime endTime schemas stmtTypes text c Hin Hfrag.
  rewrite statementsQuery_eq in Hin. cbn [qWhere] in Hin.
  destruct Hin as [<-|Hin]; [discriminate Hfrag|].
  apply in_app_or in Hin. destruct Hin as [Hin|Hin].
  { destruct schemas; [contradiction|].
    destruct Hin as [<-|[]]. discriminate Hfrag. }
  apply in_app_or in Hin. destruct Hin as [Hin|Hin].
  { destruct stmtTypes; [contradiction|].
    destruct Hin as [<-|[]]. discriminate Hfrag. }
  apply in_map_iff in Hin. destruct Hin as [v [<- Hv]].
  exists v. split; [reflexivity|].
  pose proof (fieldsFrom_plain (ToLower text) "" eq_refl (ToLower_no_upper text)) as Hall.
  rewrite Forall_forall in Hall. exact (Hall v Hv).
Qed.

Lemma text_terms_wellformed_witness :
  exists v, textClause "tpcc" = textClause v /\ v <> "" /\ plainBytes v = true.
Proof.
  apply (text_terms_wellformed "digest" 0 10 [] [] " Select  TPCC" (textClause "tpcc")).
  - right. right. left. reflexivity.
  - reflexivity.
Defined.

(** ** Results on a store that holds rows *)

Lemma plansQuery_rowMatches (regexpLike : string -> string -> bool)
    (selectStmt : string) (beginTime endTime : Z)
    (schemaName digestValue : string) (r : Row) :
  rowMatches regexpLike
    (plansQuery selectStmt beginTime endTime schemaName digestValue) r = true <->
  (beginTime <= summary_begin_time r /\ summary_end_time r <= endTime) /\
  schema_name r = schemaName /\ digest r = digestValue.
Proof.
  unfold rowMatches. rewrite plansQuery_eq. cbn [qWhere forallb].
  rewrite clauseHolds_window, clauseHolds_schema_name, clauseHolds_digest.
  rewrite !andb_true_iff, !Z.leb_le, !String.eqb_eq. tauto.
Qed.

(** X13.  The plan query selects the rows of the given schema name and
    digest whose window is contained, and groups them by plan digest with
    no ordering: on a store that holds [rows], [queryPlans] returns one
    result per plan digest of the selected rows, in the order the plans
    first appear, each made of all the selected rows of that plan. *)
Theorem plans_grouped_by_plan :
  forall (regexpLike : string -> string -> bool)
         (project : Query -> list Row -> Model)
         (s : Service) (columns : list string) (rows : list Row)
         (beginTime endTime : Z) (schemaName digestValue selectStmt : string),
    genSelectStmt s columns planFields = (selectStmt, None) ->
    let query := plansQuery selectStmt beginTime endTime schemaName digestValue in
    let chosen := selected regexpLike query rows in
    let groups := groupRows (fun r => [plan_digest r]) chosen in
    (forall r, In r chosen <->
       In r rows /\
       (beginTime <= summary_begin_time r /\ summary_end_time r <= endTime) /\
       schema_name r = schemaName /\ digest r = digestValue) /\
    snd (queryPlans s beginTime endTime schemaName digestValue
           (tableDB regexpLike project columns rows))
      = Returned (map (fun g => project query (snd g)) groups, None) /\
    NoDup (map fst groups) /\
    (forall k rs, In (k, rs) groups ->
       rs <> [] /\ rs = filter (fun r => keyEqb k [plan_digest r]) chosen) /\
    (forall r, In r chosen -> In [plan_digest r] (map fst groups)).
Proof.
  intros regexpLike project s columns rows beginTime endTime schemaName
         digestValue selectStmt Hsel query chosen groups.
  split; [|split].
  - intros r. subst chosen. unfold selected. rewrite filter_In.
    subst query. rewrite plansQuery_rowMatches. reflexivity.
  - unfold queryPlans, bind, GetTableColumnNames, Find.
    cbn [tableDB onColumns history]. rewrite Hsel. reflexivity.
  - apply groupRows_spec.
Qed.

Lemma plans_grouped_by_plan_witness :
  snd (queryPlans allColumnsService 0 1000 "test" "d2"
         (tableDB Regexp.REGEXP sampleProject ["digest"; "sum_latency"]
            [planRow "d1" "p1" 30; planRow "d2" "p1" 20; planRow "d2" "p2" 40;
             planRow "d2" "p1" 5]))
    = Returned ([[("digest", SStr "d2"); ("agg_sum_latency", SInt 25)];
                 [("digest", SStr "d2"); ("agg_sum_latency", SInt 40)]], None).
Proof.
  exact (proj1 (proj2
    (plans_grouped_by_plan Regexp.REGEXP sampleProject allColumnsService
       ["digest"; "sum_latency"]
       [planRow "d1" "p1" 30; planRow "d2" "p1" 20; planRow "d2" "p2" 40;
        planRow "d2" "p1" 5]
       0 1000 "test" "d2" "digest, sum_latency" eq_refl))).
Defined.

(** X14.  On a store that holds [rows] and does not fail,
    [queryStatements] returns no error, and its result is empty exactly
    when no row passes the filters: no match is an empty result, not an
    error. *)
Theorem statements_empty_iff_no_match :
  forall (regexpLike : string -> string -> bool)
         (project : Query -> list Row -> Model)
         (s : Service) (columns : list string) (rows : list Row)
         (beginTime endTime : Z) (schemas stmtTypes : list string)
         (text : string) (reqFields : list string) (selectStmt : string),
    genSelectStmt s columns reqFields = (selectStmt, None) ->
    exists result,
      snd (queryStatements s beginTime endTime schemas stmtTypes text reqFields
             (tableDB regexpLike project columns rows))
        = Returned (result, None) /\
      (result = [] <->
       selected regexpLike
         (statementsQuery selectStmt beginTime endTime schemas stmtTypes text) rows
       = []).
Proof.
  intros regexpLike project s columns rows beginTime endTime schemas stmtTypes
         text reqFields selectStmt Hsel.
  set (query := statementsQuery selectStmt beginTime endTime schemas stmtTypes text).
  exists (map (fun g => project query (snd g)) (evalQuery regexpLike query rows)).
  split.
  - unfold queryStatements, bind, GetTableColumnNames, Find.
    cbn [tableDB onColumns history]. rewrite Hsel. reflexivity.
  - assert (Hgroups :
              evalQuery regexpLike query rows
              = fold_right insertDesc []
                  (groupRows (fun r => [schema_name r; digest r])
                     (selected regexpLike query rows))).
    { unfold evalQuery. subst query. rewrite statementsQuery_eq. reflexivity. }
    rewrite Hgroups.
    pose proof (sortDesc_perm
                  (groupRows (fun r => [schema_name r; digest r])
                     (selected regexpLike query rows))) as Hperm.
    destruct (groupRows_spec (fun r => [schema_name r; digest r])
                (selected regexpLike query rows)) as [_ [_ Hevery]].
    split.
    + intros Hempty. apply map_eq_nil in Hempty.
      rewrite Hempty in Hperm.
      apply Permutation_sym, Permutation_nil in Hperm.
      destruct (selected regexpLike query rows) as [|r rest]; [reflexivity|].
      specialize (Hevery r (or_introl eq_refl)).
      rewrite Hperm in Hevery. contradiction Hevery.
    + intros ->. reflexivity.
Qed.

Lemma statements_empty_iff_no_match_witness :
  exists result,
    snd (queryStatements allColumnsService 300 400 [] [] "" ["digest"]
           (tableDB Regexp.REGEXP sampleProject ["digest"]
              [planRow "d1" "p1" 30]))
      = Returned (result, None) /\
    (result = [] <->
     selected Regexp.REGEXP (statementsQuery "digest" 300 400 [] [] "")
       [planRow "d1" "p1" 30] = []).
Proof.
  apply (statements_empty_iff_no_match Regexp.REGEXP sampleProject
           allColumnsService ["digest"] [planRow "d1" "p1" 30]
           300 400 [] [] "" ["digest"] "digest").
  reflexivity.
Defined.

(** ** The enabled flag *)

Lemma queryStmtConfig_Enable (db : DB) (enable : Z) (e : option error)
    (config : Config) (err : option error) :
  snd (querySQLIntVariable stmtEnableVar db) = Returned (enable, e) ->
  snd (queryStmtConfig db) = Returned (Some config, err) ->
  e = None /\ Enable config = negb (enable =? 0).
Proof.
  intros Hread Hrun.
  rewrite queryStmtConfig_cases in Hrun. cbn zeta in Hrun.
  rewrite Hread in Hrun. destruct e as [e|]; [discriminate Hrun|].
  split; [reflexivity|].
  destruct (snd (querySQLIntVariable stmtRefreshIntervalVar _))
    as [[refreshInterval [e|]]|p]; cbn [snd] in Hrun; try discriminate Hrun.
  destruct (snd (querySQLIntVariable stmtHistorySizeVar _))
    as [[historySize [e|]]|p]; cbn [snd] in Hrun; try discriminate Hrun.
  injection Hrun as <- _. reflexivity.
Qed.

(** X15.  When the read of the enabled flag yields the text [strVal] and
    [queryStmtConfig] returns a configuration, [Enable] is false exactly
    when [strVal] parses to the integer 0; an unset flag, read as the
    empty text, gives [Enable] true. *)
Theorem enable_false_iff_zero :
  forall (db : DB) (strVal : string) (rest : list string)
         (config : Config) (err : option error),
    onPluck db (history db)
      (Sprintf "SELECT @@GLOBAL.%s as value" [stmtEnableVar]) "value"
      = (strVal :: rest, None) ->
    snd (queryStmtConfig db) = Returned (Some config, err) ->
    (Enable config = false <-> Atoi strVal = inl 0).
Proof.
  intros db strVal rest config err Hread Hrun.
  pose proof (querySQLIntVariable_eq stmtEnableVar db) as Hq.
  rewrite Hread in Hq. apply (f_equal snd) in Hq. cbn [snd] in Hq.
  destruct (String.eqb_spec strVal "") as [->|Hne].
  - destruct (queryStmtConfig_Enable db _ _ config err Hq Hrun) as [_ ->].
    split; discriminate.
  - destruct (Atoi strVal) as [n|e] eqn:HA.
    + destruct (queryStmtConfig_Enable db _ _ config err Hq Hrun) as [_ ->].
      destruct (Z.eqb_spec n 0) as [->|Hn].
      * split; reflexivity.
      * split; [discriminate | intros H; injection H as H; contradiction].
    + destruct (queryStmtConfig_Enable db _ _ config err Hq Hrun) as [H _].
      discriminate H.
Qed.

Lemma enable_false_iff_zero_witness :
  Enable (mkConfig false 1800 24) = false <-> Atoi "+0" = inl 0.
Proof.
  apply (enable_false_iff_zero
           (variablesDB [(["+0"], None); ([""], None); ([""], None)])
           "+0" [] (mkConfig false 1800 24) None); reflexivity.
Defined.
